(** * gerync/utils: object-key validators, message store, colored log and
      the Express error handler, embedded from the TypeScript sources.

    Modelling conventions.
    - A JavaScript object used as a string-keyed mapping is a [gmap string _]:
      its entries are the object's own enumerable properties.  Property
      lookup is own-property lookup; members inherited from
      [Object.prototype] and [String.prototype] are not part of the model.
    - [undefined] for an optional field of a request or error object is
      [None]; the fields themselves carry the types of the shapes the
      handler consumes (status: integer, code/message/stack: string,
      errors: a sequence of field errors, headers: a mapping of strings).
    - Catalog data is caller-defined and untyped in the source ([any]); it
      is modelled by the dynamic type [value]: [undefined], [null],
      booleans, integers, strings and plain objects.
    - Strings are byte strings; the white space of [trim] and of [\s] is
      the ASCII white space.
    - What a function does to the outside world (calls to [Coloredlog],
      [res.status], [res.json], [next]; calls to [console.log]) is the list
      of these calls, in order; an exception is the result [Throw]. *)

From Stdlib Require Import ZArith Bool Ascii String List Lia.
From stdpp Require Import base option list strings gmap pretty.

Local Open Scope string_scope.
Local Open Scope Z_scope.

(** ** JavaScript values (the part the sources can observe) *)

#[warnings="-register-all"]
Inductive value : Type :=
| VUndef
| VNull
| VBool (b : bool)
| VNum (n : Z)
| VStr (s : string)
| VObj (fields : gmap string value).

(** ** src/functions/ObjectKeys.ts *)
Module ObjectKeys.
Section Keys.
Context {V : Type}.
Implicit Types obj : gmap string V.

(** [Object.keys(obj)] *)
Definition Object_keys obj : list string := (map_to_list obj).*1.

(** [key in obj] *)
Definition has_key (key : string) obj : bool := bool_decide (is_Some (obj !! key)).

Definition Keysamount obj : Z := Z.of_nat (length (Object_keys obj)).

(** [max] is [None] when the caller omits it ([max === undefined]). *)
Definition KeysInRange obj (min : Z) (max : option Z) : bool :=
  let keyCount := Keysamount obj in
  let max := match max with None => min | Some m => m end in
  (keyCount >=? min) && (keyCount <=? max).

Definition KeysInRangeDetailed obj (min : Z) (max : option Z) : Z :=
  let keyCount := Keysamount obj in
  let max := match max with None => min | Some m => m end in
  if keyCount <? min then -1
  else if keyCount >? max then 1
  else 0.

(** The two [for ... of] loops return [false] at the first offending key
    and fall through otherwise. *)
Fixpoint all_present (keys : list string) obj : bool :=
  match keys with
  | [] => true
  | key :: rest => if negb (has_key key obj) then false else all_present rest obj
  end.

Fixpoint all_allowed (objKeys : list string) (allowedSet : gset string) : bool :=
  match objKeys with
  | [] => true
  | key :: rest =>
      if negb (bool_decide (key ∈ allowedSet)) then false else all_allowed rest allowedSet
  end.

Definition AllowedKeys obj (keys optionalKeys : list string) : bool :=
  let objKeys := Object_keys obj in
  let allowedSet : gset string := list_to_set (keys ++ optionalKeys) in
  if (Z.of_nat (length objKeys) >? Z.of_nat (size allowedSet)) then false
  else if negb (all_present keys obj) then false
  else if negb (all_allowed objKeys allowedSet) then false
  else true.
End Keys.
End ObjectKeys.

(** ** JavaScript primitives used by the sources *)
Module Js.

(** ToBoolean *)
Definition truthy (v : value) : bool :=
  match v with
  | VUndef | VNull => false
  | VBool b => b
  | VNum n => negb (n =? 0)
  | VStr s => negb (String.eqb s "")
  | VObj _ => true
  end.

(** [a || b] on values. *)
Definition or (a b : value) : value := if truthy a then a else b.

(** An optional, typed field seen as a value. *)
Definition of_str (o : option string) : value :=
  match o with Some s => VStr s | None => VUndef end.
Definition of_num (o : option Z) : value :=
  match o with Some n => VNum n | None => VUndef end.

(** [a || d] where [a] is an optional string field and [d] a string. *)
Definition str_or (a : option string) (d : string) : string :=
  match a with
  | Some s => if truthy (VStr s) then s else d
  | None => d
  end.

(** [a || d] where [a] is an optional integer field and [d] a number. *)
Definition num_or (a : option Z) (d : Z) : Z :=
  match a with
  | Some n => if truthy (VNum n) then n else d
  | None => d
  end.

(** ToString, as applied by template literals and property keys. *)
Definition to_string (v : value) : string :=
  match v with
  | VUndef => "undefined"
  | VNull => "null"
  | VBool true => "true"
  | VBool false => "false"
  | VNum n => pretty n
  | VStr s => s
  | VObj _ => "[object Object]"
  end.

(** Exceptions: the only one the sources can raise is a [TypeError]
    (property read on [undefined] or [null]). *)
Inductive error : Type := TypeError.

Inductive Exc (A : Type) : Type :=
| Ok (a : A)
| Throw (e : error).
Arguments Ok {A} a.
Arguments Throw {A} e.

#[global] Instance Exc_ret : MRet Exc := λ A a, Ok a.
#[global] Instance Exc_bind : MBind Exc := λ A B f m,
  match m with Ok a => f a | Throw e => Throw e end.

(** Own properties of a string primitive: [length] and the indices. *)
Fixpoint str_index (s : string) (i : nat) (k : string) : value :=
  match s with
  | EmptyString => VUndef
  | String c rest =>
      if String.eqb (pretty i) k then VStr (String c EmptyString)
      else str_index rest (S i) k
  end.

Definition str_prop (s : string) (k : string) : value :=
  if String.eqb k "length" then VNum (Z.of_nat (String.length s))
  else str_index s 0 k.

(** [o[k]]: raises on [undefined] and [null]. *)
Definition get (o : value) (k : string) : Exc value :=
  match o with
  | VUndef | VNull => Throw TypeError
  | VObj fields => Ok (default VUndef (fields !! k))
  | VStr s => Ok (str_prop s k)
  | VBool _ | VNum _ => Ok VUndef
  end.

(** [o?.[k]] *)
Definition get_opt (o : value) (k : string) : Exc value :=
  match o with
  | VUndef | VNull => Ok VUndef
  | _ => get o k
  end.

(** [typeof v === 'string'] *)
Definition is_string (v : value) : bool :=
  match v with VStr _ => true | _ => false end.

(** [s.includes(sub)] *)
Fixpoint includes (s sub : string) : bool :=
  String.prefix sub s ||
  match s with
  | EmptyString => false
  | String _ rest => includes rest sub
  end.

(** [s.split(',')[0]]: the text before the first comma. *)
Fixpoint first_segment (s : string) : string :=
  match s with
  | EmptyString => EmptyString
  | String c rest =>
      if Ascii.eqb c "," then EmptyString else String c (first_segment rest)
  end.

(** [s.replace(c, r)] with a one-character pattern: first occurrence only. *)
Fixpoint replace_first (c : ascii) (r : string) (s : string) : string :=
  match s with
  | EmptyString => EmptyString
  | String d rest =>
      if Ascii.eqb d c then r ++ rest else String d (replace_first c r rest)
  end.

(** White space of [String.prototype.trim] (the ASCII part of it). *)
Definition is_ws (c : ascii) : bool :=
  match nat_of_ascii c with
  | 9%nat | 10%nat | 11%nat | 12%nat | 13%nat | 32%nat => true
  | _ => false
  end.

Fixpoint trim_start (s : string) : string :=
  match s with
  | EmptyString => EmptyString
  | String c rest => if is_ws c then trim_start rest else s
  end.

(** Trailing white space: drop a character when it is white space and
    everything after it has been dropped. *)
Fixpoint trim_end (s : string) : string :=
  match s with
  | EmptyString => EmptyString
  | String c rest =>
      match trim_end rest with
      | EmptyString => if is_ws c then EmptyString else String c EmptyString
      | t => String c t
      end
  end.

Definition trim (s : string) : string := trim_end (trim_start s).

End Js.
Export Js.

(** ** Config.ts: the runtime configuration store *)
Module Configs.

Record Prefs : Type := {
  noDupesAllowedof : option (list string);
  acceptedLanguages : option (list string)
}.

(** The two module-level variables.  [runtimePrefs] is [None] when the
    caller configured the store without preferences ([undefined]). *)
Record state : Type := {
  runtimeResponses : value;
  runtimePrefs : option Prefs
}.

(** State at module load. *)
Definition initial : state := {|
  runtimeResponses := VObj ∅;
  runtimePrefs := Some {| noDupesAllowedof := Some []; acceptedLanguages := Some ["en"] |}
|}.

Definition configure (responses : value) (prefs : option Prefs) (st : state) : state :=
  {| runtimeResponses := responses; runtimePrefs := prefs |}.

Definition getResponses (st : state) : value := runtimeResponses st.

Definition getPrefs (st : state) : option Prefs := runtimePrefs st.

(** [!v || typeof v !== 'object'] *)
Definition not_an_object (v : value) : bool :=
  negb (truthy v) || match v with VObj _ | VNull => false | _ => true end.

Definition fields_of (v : value) : gmap string value :=
  match v with VObj fields => fields | _ => ∅ end.

Definition setMessage (lang code message : string) (st : state) : state :=
  let responses :=
    if not_an_object (runtimeResponses st) then ∅ else fields_of (runtimeResponses st) in
  let pack :=
    if not_an_object (default VUndef (responses !! lang)) then ∅
    else fields_of (default VUndef (responses !! lang)) in
  {| runtimeResponses := VObj (<[lang := VObj (<[code := VStr message]> pack)]> responses);
     runtimePrefs := runtimePrefs st |}.

(** [pack && typeof pack[code] === 'string']: the string, when the test
    succeeds. *)
Definition string_entry (pack : value) (code : string) : Exc (option string) :=
  if truthy pack then
    entry ← get pack code;
    Ok (match entry with VStr s => Some s | _ => None end)
  else Ok None.

(** The result is [None] for [undefined]. *)
Definition getMessage (lang code : string) (fallback : option string) (st : state)
  : Exc (option string) :=
  langPack ← get_opt (runtimeResponses st) lang;
  found ← string_entry langPack code;
  match found with
  | Some text => Ok (Some text)
  | None =>
      englishPack ← get_opt (runtimeResponses st) "en";
      found ← string_entry englishPack code;
      match found with
      | Some text => Ok (Some text)
      | None => Ok fallback
      end
  end.

End Configs.

(** ** handleError.ts: the Express error handler *)

(** Request shape consumed by the handler. *)
Module Req.
Record t : Type := {
  lang : option string;
  language : option string;
  headers : option (gmap string string);
  method : option string;
  originalUrl : option string;
  url : option string;
  id : option string;
  requestId : option string
}.
End Req.

(** Error object shape consumed by the handler. *)
Module Err.
Record FieldError : Type := {
  param : option string;
  path : option string
}.
Record t : Type := {
  status : option Z;
  code : option string;
  message : option string;
  errors : option (list FieldError);
  stack : option string
}.
End Err.

(** The JSON body handed to [res.json]. *)
Module Body.
Record t : Type := {
  status : string;
  code : string;
  message : value
}.
End Body.

Module HandleError.

(** What the handler does to the outside world, in order. *)
Inductive Event : Type :=
| Coloredlog_call (message color : string)
| Res_status (statusCode : Z)
| Res_json (body : Body.t)
| Next_call (arg : value).

(** [req.lang || req.language || (req.headers['accept-language']
      ? req.headers['accept-language'].split(',')[0] : 'en')] *)
Definition lang_of (req : Req.t) : Exc string :=
  let tagged := str_or (Req.lang req) (str_or (Req.language req) "") in
  if truthy (VStr tagged) then Ok tagged
  else
    headers ← match Req.headers req with
              | Some h => Ok h
              | None => Throw TypeError
              end;
    if truthy (of_str (headers !! "accept-language"))
    then Ok (first_segment (default "" (headers !! "accept-language")))
    else Ok "en".

Definition serverDefaultMessages : gmap string string :=
  list_to_map [
    ("INTERNAL_SERVER_ERROR", "An internal server error occurred.");
    ("DATABASE_ERROR", "A database error occurred.");
    ("SERVICE_UNAVAILABLE", "Service is temporarily unavailable.");
    ("BAD_GATEWAY", "Bad gateway.");
    ("GATEWAY_TIMEOUT", "Gateway timed out.");
    ("NOT_IMPLEMENTED", "This feature is not implemented.");
    ("NETWORK_ERROR", "A network error occurred.");
    ("TIMEOUT", "The operation timed out.")
  ].

(** [responses[lang] || responses['en'] || {}] *)
Definition select_responses (responses : value) (lang : string) : Exc value :=
  byLang ← get responses lang;
  if truthy byLang then Ok byLang
  else
    english ← get responses "en";
    if truthy english then Ok english else Ok (VObj ∅).

(** The loop over [noDupesof]: [break] at the first field found in the raw
    message, whatever [possibleResponses.dupes?.[field]] is. *)
Fixpoint scan_dupes (possibleResponses : value) (rawErrorMessage : string)
    (noDupesof : list string) (responseMessage : value) : Exc value :=
  match noDupesof with
  | [] => Ok responseMessage
  | field :: rest =>
      if includes rawErrorMessage field then
        dupes ← get possibleResponses "dupes";
        get_opt dupes field
      else scan_dupes possibleResponses rawErrorMessage rest responseMessage
  end.

(** [fieldError.param || fieldError.path], used as a property key. *)
Definition fieldName (fieldError : Err.FieldError) : value :=
  or (of_str (Err.param fieldError)) (of_str (Err.path fieldError)).

(** The loop over [err.errors]: [break] at the first field error whose
    name has a truthy entry under [possibleResponses.validation]. *)
Fixpoint scan_validation (possibleResponses : value)
    (errors : list Err.FieldError) (responseMessage : value) : Exc value :=
  match errors with
  | [] => Ok responseMessage
  | fieldError :: rest =>
      validation ← get possibleResponses "validation";
      entry ← get_opt validation (to_string (fieldName fieldError));
      if truthy entry then
        validation ← get possibleResponses "validation";
        get validation (to_string (fieldName fieldError))
      else scan_validation possibleResponses rest responseMessage
  end.

(** Lines 43-69: the message chosen by the shape of the error. *)
Definition primary_message (prefs : option Configs.Prefs) (possibleResponses : value)
    (err : Err.t) (code rawErrorMessage : string) : Exc value :=
  let responseMessage := VStr "" in
  if String.eqb code "ER_DUP_ENTRY" || includes rawErrorMessage "ER_DUP_ENTRY" then
    prefs ← match prefs with Some p => Ok p | None => Throw TypeError end;
    let noDupesof := default [] (Configs.noDupesAllowedof prefs) in
    scan_dupes possibleResponses rawErrorMessage noDupesof responseMessage
  else if String.eqb code "VALIDATION_ERROR" && bool_decide (is_Some (Err.errors err)) then
    scan_validation possibleResponses (default [] (Err.errors err)) responseMessage
  else Ok (VStr rawErrorMessage).

(** Lines 72-85: the fallback chain. *)
Definition fallback_message (possibleResponses : value) (statusCode : Z)
    (code : string) (responseMessage : value) : Exc value :=
  if negb (truthy responseMessage) then
    byCode ← get possibleResponses code;
    if truthy byCode then Ok byCode
    else if (statusCode >=? 500) && truthy (of_str (serverDefaultMessages !! code))
    then Ok (of_str (serverDefaultMessages !! code))
    else
      general ← get possibleResponses "general";
      generalError ← get_opt general "error";
      Ok (or generalError (of_str (serverDefaultMessages !! "INTERNAL_SERVER_ERROR")))
  else Ok responseMessage.

Definition userCausedCodes : gset string :=
  list_to_set [
    "VALIDATION_ERROR"; "ER_DUP_ENTRY"; "BAD_REQUEST"; "UNAUTHORIZED"; "FORBIDDEN";
    "NOT_FOUND"; "CONFLICT"; "METHOD_NOT_ALLOWED"; "NOT_ACCEPTABLE";
    "UNSUPPORTED_MEDIA_TYPE"; "PAYLOAD_TOO_LARGE"; "UNPROCESSABLE_ENTITY";
    "TOO_MANY_REQUESTS"
  ].

Definition isUserError (statusCode : Z) (code : string) : bool :=
  ((statusCode >=? 400) && (statusCode <? 500)) || bool_decide (code ∈ userCausedCodes).

(** Lines 12-108: everything the handler computes before it logs. *)
Record Resolution : Type := {
  statusCode : Z;
  code : string;
  rawErrorMessage : string;
  responseMessage : value;
  userCaused : bool
}.

Definition resolve (st : Configs.state) (err : Err.t) (req : Req.t) : Exc Resolution :=
  let responses := Configs.getResponses st in
  let prefs := Configs.getPrefs st in
  lang ← lang_of req;
  let statusCode := num_or (Err.status err) 500 in
  let code := str_or (Err.code err) "INTERNAL_SERVER_ERROR" in
  let rawErrorMessage := str_or (Err.message err) "" in
  possibleResponses ← select_responses responses lang;
  responseMessage ← primary_message prefs possibleResponses err code rawErrorMessage;
  responseMessage ← fallback_message possibleResponses statusCode code responseMessage;
  Ok {| statusCode := statusCode;
        code := code;
        rawErrorMessage := rawErrorMessage;
        responseMessage := responseMessage;
        userCaused := isUserError statusCode code |}.

(** [`${req.method || ''} ${req.originalUrl || req.url || ''}`.trim()] *)
Definition routeInfo (req : Req.t) : string :=
  trim (str_or (Req.method req) "" ++ " "
        ++ str_or (Req.originalUrl req) (str_or (Req.url req) "")).

(** [req.id || req.requestId || ''] *)
Definition requestId (req : Req.t) : string :=
  str_or (Req.id req) (str_or (Req.requestId req) "").

(** Lines 118-141.  [now] is the text [new Date().toISOString()] returns. *)
Definition report (now : string) (r : Resolution) (err : Err.t) (req : Req.t)
  : list Event :=
  let exactTime := replace_first "Z" "" (replace_first "T" " " now) in
  [Coloredlog_call "===================== ERROR REPORT =====================" "red";
   Coloredlog_call ("Time: " ++ exactTime) "yellow"]
  ++ (if truthy (VStr (routeInfo req))
      then [Coloredlog_call ("Route: " ++ routeInfo req) "yellow"] else [])
  ++ (if truthy (VStr (requestId req))
      then [Coloredlog_call ("RequestId: " ++ requestId req) "yellow"] else [])
  ++ [Coloredlog_call ("Status: " ++ to_string (VNum (statusCode r))) "magenta";
      Coloredlog_call ("Code: " ++ code r) "magenta";
      Coloredlog_call ("UserMessage: " ++ to_string (responseMessage r)) "cyan";
      Coloredlog_call ("RawMessage: " ++ rawErrorMessage r) "white";
      Coloredlog_call "Stack:" "gray";
      Coloredlog_call (str_or (Err.stack err) "N/A") "gray";
      Coloredlog_call "========================================================" "red"].

(** Lines 147-151. *)
Definition respond (r : Resolution) : list Event :=
  [Res_status (statusCode r);
   Res_json {| Body.status := "error";
               Body.code := code r;
               Body.message := responseMessage r |}].

(** The handler: an exception, or the trace of its calls. *)
Definition errorHandler (st : Configs.state) (now : string)
    (err : Err.t) (req : Req.t) : Exc (list Event) :=
  r ← resolve st err req;
  Ok ((if negb (userCaused r) then report now r err req else []) ++ respond r)%list.

(** Readings of a trace. *)
Definition logged (trace : list Event) : list (string * string) :=
  omap (λ e, match e with Coloredlog_call m c => Some (m, c) | _ => None end) trace.

Definition json_bodies (trace : list Event) : list Body.t :=
  omap (λ e, match e with Res_json b => Some b | _ => None end) trace.

Definition status_lines (trace : list Event) : list Z :=
  omap (λ e, match e with Res_status n => Some n | _ => None end) trace.

Definition next_calls (trace : list Event) : list value :=
  omap (λ e, match e with Next_call a => Some a | _ => None end) trace.

End HandleError.

(** ** Regular expressions, with JavaScript's backtracking order *)
Module Regex.

Inductive regex : Type :=
| Eps
| Cls (p : ascii → bool)
| Seq (a b : regex)
| Alt (a b : regex)
| Opt (a : regex)
| Star (a : regex)
| Cap (i : nat) (a : regex).

Definition captures : Type := list (nat * string).

(** The text consumed between [s] and its suffix [rest]. *)
Definition taken (s rest : string) : string :=
  String.substring 0 (String.length s - String.length rest) s.

(** [run r s caps k]: match [r] at the front of [s], then continue with
    [k] on what is left; alternatives are tried left to right, [?] and [*]
    are greedy, and an iteration of [*] that consumes nothing is rejected. *)
Fixpoint run (r : regex) (s : string) (caps : captures)
    (k : string → captures → option captures) {struct r} : option captures :=
  match r with
  | Eps => k s caps
  | Cls p =>
      match s with
      | String c rest => if p c then k rest caps else None
      | EmptyString => None
      end
  | Seq a b => run a s caps (λ s' caps', run b s' caps' k)
  | Alt a b =>
      match run a s caps k with
      | Some found => Some found
      | None => run b s caps k
      end
  | Opt a =>
      match run a s caps k with
      | Some found => Some found
      | None => k s caps
      end
  | Star a =>
      (fix loop (fuel : nat) (s : string) (caps : captures) : option captures :=
         match fuel with
         | O => k s caps
         | S fuel' =>
             match run a s caps (λ s' caps',
                     if (String.length s' <? String.length s)%nat
                     then loop fuel' s' caps' else None) with
             | Some found => Some found
             | None => k s caps
             end
         end) (String.length s) s caps
  | Cap i a => run a s caps (λ s' caps', k s' ((i, taken s s') :: caps'))
  end.

(** [/^r$/.exec(s)]: the captures of the first successful match. *)
Definition exec (r : regex) (s : string) : option captures :=
  run r s [] (λ rest caps, if String.eqb rest "" then Some caps else None).

(** [/^r$/.test(s)] *)
Definition test (r : regex) (s : string) : bool :=
  match exec r s with Some _ => true | None => false end.

(** [match[i]] *)
Definition group (i : nat) (caps : captures) : option string :=
  snd <$> List.find (λ c, Nat.eqb (fst c) i) caps.

(** Pattern builders. *)
Definition chr (c : ascii) : regex := Cls (Ascii.eqb c).

Fixpoint lit (s : string) : regex :=
  match s with
  | EmptyString => Eps
  | String c rest => Seq (chr c) (lit rest)
  end.

Definition lower (c : ascii) : ascii :=
  let n := nat_of_ascii c in
  if ((65 <=? n) && (n <=? 90))%nat then ascii_of_nat (n + 32) else c.

Fixpoint toLowerCase (s : string) : string :=
  match s with
  | EmptyString => EmptyString
  | String c rest => String (lower c) (toLowerCase rest)
  end.

(** A literal under the [i] flag. *)
Fixpoint lit_i (s : string) : regex :=
  match s with
  | EmptyString => Eps
  | String c rest => Seq (Cls (λ d, Ascii.eqb (lower d) (lower c))) (lit_i rest)
  end.

(** [r{n}] *)
Fixpoint times (n : nat) (r : regex) : regex :=
  match n with
  | O => Eps
  | S n' => Seq r (times n' r)
  end.

(** [r{0,n}] *)
Fixpoint upto (n : nat) (r : regex) : regex :=
  match n with
  | O => Eps
  | S n' => Opt (Seq r (upto n' r))
  end.

(** [a|b|...] *)
Fixpoint alts (rs : list regex) : regex :=
  match rs with
  | [] => Cls (λ _, false)
  | [r] => r
  | r :: rest => Alt r (alts rest)
  end.

(** [\d], [\s] (the ASCII part of it) and [[A-Fa-f0-9]]. *)
Definition digit (c : ascii) : bool :=
  let n := nat_of_ascii c in ((48 <=? n) && (n <=? 57))%nat.

Definition space (c : ascii) : bool := is_ws c.

Definition hexdigit (c : ascii) : bool :=
  let n := nat_of_ascii c in
  (((65 <=? n) && (n <=? 70)) || ((97 <=? n) && (n <=? 102))
   || ((48 <=? n) && (n <=? 57)))%nat.

End Regex.

(** ** Colorlog.ts: colored console output *)

(** One [console.log] call: its arguments. *)
Definition console_call : Type := list string.

Module Colorlog.
Import Regex.

(** [/^#([A-Fa-f0-9]{3}|[A-Fa-f0-9]{4}|[A-Fa-f0-9]{6}|[A-Fa-f0-9]{8})$/] *)
Definition ColorRegex_hex : regex :=
  Seq (chr "#")
      (Cap 1 (alts [times 3 (Cls hexdigit); times 4 (Cls hexdigit);
                    times 6 (Cls hexdigit); times 8 (Cls hexdigit)])).

(** [(\d{1,3}%?)] as capture group [i]. *)
Definition channel (i : nat) : regex :=
  Cap i (Seq (Seq (Cls digit) (upto 2 (Cls digit))) (Opt (chr "%"))).

(** [\s*[\s,]\s*] and [\s*[\s,/]\s*] *)
Definition separator (extra : ascii → bool) : regex :=
  Seq (Star (Cls space))
      (Seq (Cls (λ c, space c || Ascii.eqb c "," || extra c)) (Star (Cls space))).

(** [((?:0|1|0?\.\d+)(?:%?))] *)
Definition alpha : regex :=
  Cap 4 (Seq (alts [chr "0"; chr "1";
                    Seq (Opt (chr "0"))
                        (Seq (chr ".") (Seq (Cls digit) (Star (Cls digit))))])
             (Opt (chr "%"))).

(** [/^rgba?\(\s*(\d{1,3}%?)\s*[\s,]\s*(\d{1,3}%?)\s*[\s,]\s*(\d{1,3}%?)
      (?:\s*[\s,/]\s*((?:0|1|0?\.\d+)(?:%?)))?\s*\)$/] *)
Definition ColorRegex_rgb : regex :=
  Seq (lit "rgb") (Seq (Opt (chr "a")) (Seq (chr "(") (Seq (Star (Cls space))
  (Seq (channel 1) (Seq (separator (λ _, false))
  (Seq (channel 2) (Seq (separator (λ _, false))
  (Seq (channel 3)
  (Seq (Opt (Seq (separator (λ c, Ascii.eqb c "/")) alpha))
  (Seq (Star (Cls space)) (chr ")"))))))))))).

(** The names listed in the [named] pattern, in its order. *)
Definition named_colors : list string := [
  "aliceblue"; "antiquewhite"; "aqua"; "aquamarine"; "azure"; "beige"; "bisque";
  "black"; "blanchedalmond"; "blue"; "blueviolet"; "brown"; "burlywood"; "cadetblue";
  "chartreuse"; "chocolate"; "coral"; "cornflowerblue"; "cornsilk"; "crimson"; "cyan";
  "darkblue"; "darkcyan"; "darkgoldenrod"; "darkgray"; "darkgreen"; "darkgrey";
  "darkkhaki"; "darkmagenta"; "darkolivegreen"; "darkorange"; "darkorchid"; "darkred";
  "darksalmon"; "darkseagreen"; "darkslateblue"; "darkslategray"; "darkslategrey";
  "darkturquoise"; "darkviolet"; "deeppink"; "deepskyblue"; "dimgray"; "dimgrey";
  "dodgerblue"; "firebrick"; "floralwhite"; "forestgreen"; "fuchsia"; "gainsboro";
  "ghostwhite"; "gold"; "goldenrod"; "gray"; "green"; "greenyellow"; "grey";
  "honeydew"; "hotpink"; "indianred"; "indigo"; "ivory"; "khaki"; "lavender";
  "lavenderblush"; "lawngreen"; "lemonchiffon"; "lightblue"; "lightcoral"; "lightcyan";
  "lightgoldenrodyellow"; "lightgray"; "lightgreen"; "lightgrey"; "lightpink";
  "lightsalmon"; "lightseagreen"; "lightskyblue"; "mineskyblue"; "lightslategray";
  "lightslategrey"; "lightsteelblue"; "lightyellow"; "limegreen"; "linen"; "magenta";
  "mediumaquamarine"; "mediumblue"; "mediumorchid"; "mediumpurple"; "mediumseagreen";
  "mediumslateblue"; "mediumspringgreen"; "mediumturquoise"; "mediumvioletred";
  "midnightblue"; "mintcream"; "mistyrose"; "moccasin"; "navajowhite"; "oldlace";
  "olivedrab"; "orangered"; "palegoldenrod"; "palegreen"; "palevioletred"
].

(** [/^(?:aliceblue|antiquewhite|...|palevioletred)$/i] *)
Definition ColorRegex_named : regex := alts (lit_i <$> named_colors).

Definition isValid (color : string) : bool :=
  test ColorRegex_hex color || test ColorRegex_rgb color || test ColorRegex_named color.

Definition Coloredlog (message color : string) : list console_call :=
  if isValid color then
    [["%c" +:+ message; "color: " +:+ color +:+ "; font-weight: bold;"]]
  else
    [[message]].

End Colorlog.

(** ** The three-argument Coloredlog (handleError.ts, lines 168-277) *)
Module ColorlogAnsi.
Import Regex.

Definition ColorRegex_hex : regex := Colorlog.ColorRegex_hex.

Definition ColorRegex_rgb : regex := Colorlog.ColorRegex_rgb.

(** The names listed in this version's [named] pattern. *)
Definition named_colors : list string := [
  "aliceblue"; "antiquewhite"; "aqua"; "aquamarine"; "azure"; "beige"; "bisque";
  "black"; "blanchedalmond"; "blue"; "blueviolet"; "brown"; "burlywood"; "cadetblue";
  "chartreuse"; "chocolate"; "coral"; "cornflowerblue"; "cornsilk"; "crimson"; "cyan";
  "darkblue"; "darkcyan"; "darkgoldenrod"; "darkgray"; "darkgreen"; "darkgrey";
  "darkkhaki"; "darkmagenta"; "darkolivegreen"; "darkorange"; "darkorchid"; "darkred";
  "darksalmon"; "darkseagreen"; "darkslateblue"; "darkslategray"; "darkslategrey";
  "darkturquoise"; "darkviolet"; "deeppink"; "deepskyblue"; "dimgray"; "dimgrey";
  "dodgerblue"; "firebrick"; "floralwhite"; "forestgreen"; "fuchsia"; "gainsboro";
  "ghostwhite"; "gold"; "goldenrod"; "gray"; "green"; "greenyellow"; "grey";
  "honeydew"; "hotpink"; "indianred"; "indigo"; "ivory"; "khaki"; "lavender";
  "lavenderblush"; "lawngreen"; "lemonchiffon"; "lightblue"; "lightcoral"; "lightcyan";
  "lightgoldenrodyellow"; "lightgray"; "lightgreen"; "lightgrey"; "lightpink";
  "lightsalmon"; "lightseagreen"; "lightskyblue"; "mineskyblue"; "lightslategray";
  "lightslategrey"; "lightsteelblue"; "lightyellow"; "limegreen"; "linen"; "magenta";
  "mediumaquamarine"; "mediumblue"; "mediumorchid"; "mediumpurple"; "mediumseagreen";
  "mediumslateblue"; "mediumspringgreen"; "mediumturquoise"; "mediumvioletred";
  "midnightblue"; "mincream"; "mistyrose"; "moccasin"; "navajowhite"; "oldlace";
  "olivedrab"; "orangered"; "palegoldenrod"; "palegreen"; "palevioletred"
].

Definition ColorRegex_named : regex := alts (lit_i <$> named_colors).

(** The escape character [\x1b]. *)
Definition ESC : string := String (ascii_of_nat 27) EmptyString.

Definition namedAnsi : gmap string string :=
  list_to_map [
    ("black", ESC +:+ "[30m");
    ("red", ESC +:+ "[31m");
    ("green", ESC +:+ "[32m");
    ("yellow", ESC +:+ "[33m");
    ("blue", ESC +:+ "[34m");
    ("magenta", ESC +:+ "[35m");
    ("cyan", ESC +:+ "[36m");
    ("white", ESC +:+ "[37m");
    ("gray", ESC +:+ "[90m");
    ("grey", ESC +:+ "[90m")
  ].

(** A JavaScript number that is an integer or [NaN] ([None]). *)
Definition number : Type := option Z.

Definition show (n : number) : string :=
  match n with Some z => pretty z | None => "NaN" end.

Definition digit_value (radix : Z) (c : ascii) : option Z :=
  let n := Z.of_nat (nat_of_ascii c) in
  let d := if (48 <=? n) && (n <=? 57) then n - 48
           else if (97 <=? n) && (n <=? 122) then n - 87
           else if (65 <=? n) && (n <=? 90) then n - 55
           else radix in
  if d <? radix then Some d else None.

(** The value of the longest prefix of digits; [acc] is [None] until a
    digit has been read. *)
Fixpoint digits (radix : Z) (s : string) (acc : number) : number :=
  match s with
  | EmptyString => acc
  | String c rest =>
      match digit_value radix c with
      | Some d => digits radix rest (Some (default 0 acc * radix + d))
      | None => acc
      end
  end.

(** [parseInt(s, radix)] for radix 10 and 16. *)
Definition parseInt (s : string) (radix : Z) : number :=
  let s := trim_start s in
  let '(sign, s) :=
    match s with
    | String "-" rest => (-1, rest)
    | String "+" rest => (1, rest)
    | _ => (1, s)
    end in
  let s :=
    if radix =? 16 then
      match s with
      | String "0" (String "x" rest) | String "0" (String "X" rest) => rest
      | _ => s
      end
    else s in
  Z.mul sign <$> digits radix s None.

(** [Math.max(0, Math.min(255, n))] *)
Definition clamp (n : number) : number := Z.max 0 <$> (Z.min 255 <$> n).

(** [s[i]], as text ([undefined] prints as such when concatenated). *)
Definition char_at (s : string) (i : nat) : string :=
  match String.get i s with
  | Some c => String c EmptyString
  | None => "undefined"
  end.

(** [s.slice(i, j)] for [0 <= i <= j]. *)
Definition slice (s : string) (i j : nat) : string := String.substring i (j - i) s.

Definition hexToRgb (value : string) : option (number * number * number) :=
  let clean := replace_first "#" "" value in
  let len := String.length clean in
  if (Nat.eqb len 3 || Nat.eqb len 4) then
    let r := parseInt (char_at clean 0 +:+ char_at clean 0) 16 in
    let g := parseInt (char_at clean 1 +:+ char_at clean 1) 16 in
    let b := parseInt (char_at clean 2 +:+ char_at clean 2) 16 in
    Some (r, g, b)
  else if (Nat.eqb len 6 || Nat.eqb len 8) then
    let r := parseInt (slice clean 0 2) 16 in
    let g := parseInt (slice clean 2 4) 16 in
    let b := parseInt (slice clean 4 6) 16 in
    Some (r, g, b)
  else None.

(** [s.endsWith('%')] *)
Fixpoint endsWith_percent (s : string) : bool :=
  match s with
  | EmptyString => false
  | String c EmptyString => Ascii.eqb c "%"
  | String _ rest => endsWith_percent rest
  end.

Section Rendering.

(** [Math.round((pct / 100) * 255)], a binary64 computation, is kept
    abstract. *)
Variable round_percent : Z → Z.

(** [toNum] is applied to captures of [(\d{1,3}%?)] only, so that
    [parseFloat] reads an integer. *)
Definition toNum (input : string) : number :=
  if endsWith_percent input then
    let pct := parseInt (replace_first "%" "" input) 10 in
    clamp (round_percent <$> pct)
  else clamp (parseInt input 10).

Definition rgbStringToRgb (value : string) : option (number * number * number) :=
  match exec ColorRegex_rgb value with
  | None => None
  | Some m =>
      Some (toNum (default "undefined" (group 1 m)),
            toNum (default "undefined" (group 2 m)),
            toNum (default "undefined" (group 3 m)))
  end.

Definition truecolor (rgb : number * number * number) : string :=
  let '(r, g, b) := rgb in
  ESC +:+ "[38;2;" +:+ show r +:+ ";" +:+ show g +:+ ";" +:+ show b +:+ "m".

Definition colorToAnsi (value : string) : option string :=
  let lower := toLowerCase value in
  match namedAnsi !! lower with
  | Some ansi => Some ansi
  | None =>
      match (if test ColorRegex_hex value then hexToRgb value else None) with
      | Some rgb => Some (truecolor rgb)
      | None =>
          match (if test ColorRegex_rgb value then rgbStringToRgb value else None) with
          | Some rgb => Some (truecolor rgb)
          | None => None
          end
      end
  end.

Definition isValid (color : string) : bool :=
  test ColorRegex_hex color || test ColorRegex_rgb color || test ColorRegex_named color.

(** [isBrowser] is whether [globalThis.document] is defined. *)
Definition Coloredlog (isBrowser : bool) (message color : string) (bolded : bool)
  : list console_call :=
  if isValid color then
    if isBrowser then
      let weight := if bolded then "bold" else "normal" in
      [["%c" +:+ message; "color: " +:+ color +:+ "; font-weight: " +:+ weight +:+ ";"]]
    else
      let ansi := colorToAnsi color in
      let boldAnsi := if bolded then ESC +:+ "[1m" else "" in
      match ansi with
      | Some ansi => [[ansi +:+ boldAnsi +:+ message +:+ ESC +:+ "[0m"]]
      | None =>
          if bolded then [[ESC +:+ "[1m" +:+ message +:+ ESC +:+ "[0m"]]
          else [[message]]
      end
  else
    if bolded then [[ESC +:+ "[1m" +:+ message +:+ ESC +:+ "[0m"]]
    else [[message]].

End Rendering.
End ColorlogAnsi.

(** ** Vocabulary of the statements below *)
Module Spec.
Import HandleError.

Definition nullish (v : value) : bool :=
  match v with VUndef | VNull => true | _ => false end.

(** The property [k] of [o], [undefined] when there is none. *)
Definition lookup (o : value) (k : string) : value :=
  match o with
  | VObj fields => default VUndef (fields !! k)
  | VStr s => str_prop s k
  | _ => VUndef
  end.

(** The first truthy candidate of a list tried in order. *)
Definition first_truthy (candidates : list value) : value :=
  default VUndef (List.find truthy candidates).

(** A catalog in the shape the spec gives it: language, then code (or
    category), then the entry. *)
Definition as_value (catalog : gmap string (gmap string value)) : value :=
  VObj (VObj <$> catalog).

(** The text stored at [catalog[lang][code]], if a text is stored there. *)
Definition text_at (catalog : gmap string (gmap string value))
    (lang code : string) : option string :=
  match catalog !! lang with
  | Some pack => match pack !! code with Some (VStr text) => Some text | _ => None end
  | None => None
  end.

(** The lookup order of the spec for [getMessage]. *)
Definition lookup_order (catalog : gmap string (gmap string value))
    (lang code : string) (fallback : option string) : option string :=
  match text_at catalog lang code with
  | Some text => Some text
  | None =>
      match text_at catalog "en" code with
      | Some text => Some text
      | None => fallback
      end
  end.

(** The request carries an explicit language tag or a headers mapping. *)
Definition has_language_source (req : Req.t) : bool :=
  truthy (VStr (str_or (Req.lang req) (str_or (Req.language req) "")))
  || bool_decide (is_Some (Req.headers req)).

(** The error takes the duplicate-entry branch. *)
Definition dup_related (err : Err.t) : bool :=
  String.eqb (str_or (Err.code err) "INTERNAL_SERVER_ERROR") "ER_DUP_ENTRY"
  || includes (str_or (Err.message err) "") "ER_DUP_ENTRY".

(** The error takes the validation branch. *)
Definition validation_with_errors (err : Err.t) : bool :=
  String.eqb (str_or (Err.code err) "INTERNAL_SERVER_ERROR") "VALIDATION_ERROR"
  && bool_decide (is_Some (Err.errors err)).

(** The inputs on which the handler does not read a property of
    [undefined]: a language source on the request, a catalog that is
    neither [undefined] nor [null], and preferences when the duplicate-entry
    branch reads them. *)
Definition well_formed (st : Configs.state) (err : Err.t) (req : Req.t) : bool :=
  has_language_source req
  && negb (nullish (Configs.runtimeResponses st))
  && (negb (dup_related err) || bool_decide (is_Some (Configs.runtimePrefs st))).

(** The language of step 1. *)
Definition language (req : Req.t) : string :=
  let tagged := str_or (Req.lang req) (str_or (Req.language req) "") in
  if truthy (VStr tagged) then tagged
  else
    match Req.headers req ≫= (λ h, h !! "accept-language") with
    | Some accept => if truthy (VStr accept) then first_segment accept else "en"
    | None => "en"
    end.

(** The message set of step 2. *)
Definition selected (responses : value) (lang : string) : value :=
  first_truthy [lookup responses lang; lookup responses "en"; VObj ∅].

(** The candidates of the fallback chain of step 4, in order. *)
Definition fallback_chain (possibleResponses : value) (status : Z) (code : string)
  : list value :=
  [lookup possibleResponses code;
   if status >=? 500 then of_str (serverDefaultMessages !! code) else VUndef;
   lookup (lookup possibleResponses "general") "error";
   VStr "An internal server error occurred."].

(** Step 3a: the first configured field found in the raw message selects
    [dupes[field]]; the message stays as it is when no field is found. *)
Definition dupes_choice (possibleResponses : value) (raw : string)
    (fields : list string) (message : value) : value :=
  match List.find (includes raw) fields with
  | Some field => lookup (lookup possibleResponses "dupes") field
  | None => message
  end.

(** Step 3b: the first field error whose name has a truthy entry under
    [validation] supplies the message. *)
Definition validation_choice (possibleResponses : value)
    (errors : list Err.FieldError) (message : value) : value :=
  match List.find (λ fe, truthy (lookup (lookup possibleResponses "validation")
                                        (to_string (fieldName fe)))) errors with
  | Some fe => lookup (lookup possibleResponses "validation") (to_string (fieldName fe))
  | None => message
  end.

(** Step 3: the message chosen by the shape of the error. *)
Definition primary_choice (prefs : option Configs.Prefs) (possibleResponses : value)
    (err : Err.t) : value :=
  let raw := str_or (Err.message err) "" in
  if dup_related err then
    dupes_choice possibleResponses raw
      (default [] (prefs ≫= Configs.noDupesAllowedof)) (VStr "")
  else if validation_with_errors err then
    validation_choice possibleResponses (default [] (Err.errors err)) (VStr "")
  else VStr raw.

(** An entry that is a text, or no entry. *)
Definition text_or_absent (v : value) : bool :=
  match v with VStr _ | VUndef => true | _ => false end.

(** Every entry the handler can take a message from is a text. *)
Definition texts_only (possibleResponses : value) (code : string) : Prop :=
  text_or_absent (lookup possibleResponses code) = true
  ∧ text_or_absent (lookup (lookup possibleResponses "general") "error") = true
  ∧ (∀ field, text_or_absent (lookup (lookup possibleResponses "dupes") field) = true)
  ∧ (∀ field, text_or_absent (lookup (lookup possibleResponses "validation") field) = true).

(** The events of a trace other than calls to [Coloredlog]. *)
Definition without_log (trace : list Event) : list Event :=
  List.filter (λ e, match e with Coloredlog_call _ _ => false | _ => true end) trace.

End Spec.

(** ** Concrete inputs *)
Module Samples.
Import Configs.

(** [{a:1, b:2, c:3}] *)
Definition abc : gmap string Z := {[ "a" := 1; "b" := 2; "c" := 3 ]}.

(** [{status: 500, code: "DATABASE_ERROR", message: "conn timeout"}] *)
Definition db_error : Err.t := {|
  Err.status := Some 500; Err.code := Some "DATABASE_ERROR";
  Err.message := Some "conn timeout"; Err.errors := None; Err.stack := None
|}.

(** [{status: 500, code: "DATABASE_ERROR"}] *)
Definition db_error_no_message : Err.t := {|
  Err.status := Some 500; Err.code := Some "DATABASE_ERROR";
  Err.message := None; Err.errors := None; Err.stack := None
|}.

(** [{status: 0, code: "", message: ""}] *)
Definition falsy_error : Err.t := {|
  Err.status := Some 0; Err.code := Some ""; Err.message := Some "";
  Err.errors := None; Err.stack := None
|}.

(** [{code: "general"}] *)
Definition general_error : Err.t := {|
  Err.status := None; Err.code := Some "general"; Err.message := None;
  Err.errors := None; Err.stack := None
|}.

(** [{status: 409, code: "ER_DUP_ENTRY",
      message: "ER_DUP_ENTRY: key email of username"}] *)
Definition dup_error : Err.t := {|
  Err.status := Some 409; Err.code := Some "ER_DUP_ENTRY";
  Err.message := Some "ER_DUP_ENTRY: key email of username";
  Err.errors := None; Err.stack := None
|}.

(** [{method: "POST", url: "/api/users", headers: {}}] *)
Definition plain_request : Req.t := {|
  Req.lang := None; Req.language := None; Req.headers := Some ∅;
  Req.method := Some "POST"; Req.originalUrl := None; Req.url := Some "/api/users";
  Req.id := None; Req.requestId := None
|}.

(** [{method: "POST", url: "/api/users"}]: no headers mapping. *)
Definition bare_request : Req.t := {|
  Req.lang := None; Req.language := None; Req.headers := None;
  Req.method := Some "POST"; Req.originalUrl := None; Req.url := Some "/api/users";
  Req.id := None; Req.requestId := None
|}.

(** [{en: {general: {error: "An error occurred."}}}] *)
Definition general_catalog : value :=
  VObj {[ "en" := VObj {[ "general" :=
            VObj {[ "error" := VStr "An error occurred." ]} ]} ]}.

(** [{en: {dupes: {username: "Username is taken."}}}] *)
Definition username_catalog : value :=
  VObj {[ "en" := VObj {[ "dupes" :=
            VObj {[ "username" := VStr "Username is taken." ]} ]} ]}.

(** [{noDupesAllowedof: ["phone", "email", "username"]}] *)
Definition dupes_prefs : Prefs := {|
  noDupesAllowedof := Some ["phone"; "email"; "username"];
  acceptedLanguages := None
|}.

(** [{en: {dupes: {email: "Email exists."}}}] and
    [{noDupesAllowedof: ["email"]}] *)
Definition email_catalog : value :=
  VObj {[ "en" := VObj {[ "dupes" := VObj {[ "email" := VStr "Email exists." ]} ]} ]}.

Definition email_prefs : Prefs := {|
  noDupesAllowedof := Some ["email"];
  acceptedLanguages := None
|}.

(** [{status: 409, code: "ER_DUP_ENTRY", message: "ER_DUP_ENTRY: key email"}] *)
Definition email_error : Err.t := {|
  Err.status := Some 409; Err.code := Some "ER_DUP_ENTRY";
  Err.message := Some "ER_DUP_ENTRY: key email";
  Err.errors := None; Err.stack := None
|}.

(** A request with [Accept-Language: de-DE,de;q=0.9,en;q=0.8]. *)
Definition german_request : Req.t := {|
  Req.lang := None; Req.language := None;
  Req.headers := Some {[ "accept-language" := "de-DE,de;q=0.9,en;q=0.8" ]};
  Req.method := Some "GET"; Req.originalUrl := Some "/"; Req.url := Some "/";
  Req.id := None; Req.requestId := Some "abc123"
|}.

(** A value of [new Date().toISOString()]. *)
Definition noon : string := "2025-12-29T12:00:00.000Z".

End Samples.

(** ** Further concrete inputs *)
Module MoreSamples.
Import Configs.

(** [{en: {validation: {email: "Invalid email."}}}] *)
Definition validation_catalog : value :=
  VObj {[ "en" := VObj {[ "validation" :=
            VObj {[ "email" := VStr "Invalid email." ]} ]} ]}.

(** [{status: 422, code: "VALIDATION_ERROR", message: "Validation failed",
      errors: [{param: "name"}, {path: "email"}, {param: "age"}]}] *)
Definition validation_error : Err.t := {|
  Err.status := Some 422; Err.code := Some "VALIDATION_ERROR";
  Err.message := Some "Validation failed";
  Err.errors := Some [ {| Err.param := Some "name"; Err.path := None |};
                       {| Err.param := None; Err.path := Some "email" |};
                       {| Err.param := Some "age"; Err.path := None |} ];
  Err.stack := None
|}.

(** [{status: 422, code: "VALIDATION_ERROR", message: "Validation failed",
      errors: []}] *)
Definition validation_error_no_fields : Err.t := {|
  Err.status := Some 422; Err.code := Some "VALIDATION_ERROR";
  Err.message := Some "Validation failed";
  Err.errors := Some []; Err.stack := None
|}.

(** [{noDupesAllowedof: ["phone"]}] *)
Definition phone_prefs : Prefs := {|
  noDupesAllowedof := Some ["phone"];
  acceptedLanguages := None
|}.

(** [{status: 404, code: "NOT_FOUND"}] *)
Definition not_found_error : Err.t := {|
  Err.status := Some 404; Err.code := Some "NOT_FOUND";
  Err.message := None; Err.errors := None; Err.stack := None
|}.

End MoreSamples.

(** ** Shapes of color tokens *)
Module Shapes.
Import Regex.

Fixpoint all_chars (p : ascii → bool) (s : string) : bool :=
  match s with
  | EmptyString => true
  | String c rest => p c && all_chars p rest
  end.

(** [#] followed by 3, 4, 6 or 8 hexadecimal digits. *)
Definition hex_token (s : string) : bool :=
  match s with
  | EmptyString => false
  | String c digits =>
      Ascii.eqb "#" c
      && (let n := String.length digits in
          Nat.eqb n 3 || Nat.eqb n 4 || Nat.eqb n 6 || Nat.eqb n 8)
      && all_chars hexdigit digits
  end.

(** The 256 characters. *)
Definition all_ascii : list ascii := ascii_of_nat <$> seq 0 256.

(** [s] without the prefix [w], compared exactly or ignoring case. *)
Fixpoint strip (w s : string) : option string :=
  match w with
  | EmptyString => Some s
  | String c w' =>
      match s with
      | EmptyString => None
      | String d s' => if Ascii.eqb c d then strip w' s' else None
      end
  end.

Fixpoint strip_i (w s : string) : option string :=
  match w with
  | EmptyString => Some s
  | String c w' =>
      match s with
      | EmptyString => None
      | String d s' => if Ascii.eqb (lower d) (lower c) then strip_i w' s' else None
      end
  end.

(** No listed name starts like a hex or an rgb token. *)
Definition names_apart (names : list string) : bool :=
  forallb (λ n, match strip_i "#" n, strip_i "rgb" n with
                | None, None => true
                | _, _ => false
                end) names.

(** Checks on one or two characters, run over all of them: two
    hexadecimal digits parse to a channel in range, and a doubled digit [d]
    to [17 * d]. *)
Definition hex_pair_ok (c d : ascii) : bool :=
  implb (hexdigit c && hexdigit d)
    match ColorlogAnsi.parseInt (String c (String d EmptyString)) 16 with
    | Some v => (0 <=? v) && (v <=? 255)
    | None => false
    end.

Definition hex_double_ok (c : ascii) : bool :=
  implb (hexdigit c)
    match ColorlogAnsi.digit_value 16 c, ColorlogAnsi.parseInt (String c (String c EmptyString)) 16 with
    | Some d, Some v => (0 <=? d) && (d <=? 15) && (v =? 17 * d)
    | _, _ => false
    end.

(** The names that the named pattern of the three-argument version lists
    and its [namedAnsi] table maps. *)
Definition terminal_names : list string :=
  ["black"; "blue"; "cyan"; "gray"; "green"; "grey"; "magenta"].

End Shapes.

(** * Properties *)

(** ** Object-key validators *)
Module ObjectKeysFacts.
Import ObjectKeys Samples.
Section Keys.
Context {V : Type}.
Implicit Types obj : gmap string V.

Lemma Object_keys_elem obj key : key ∈ Object_keys obj ↔ key ∈ dom obj.
Proof.
  unfold Object_keys. rewrite list_elem_of_fmap, elem_of_dom. split.
  - intros [[k v] [-> Hkv]]. apply elem_of_map_to_list in Hkv. by exists v.
  - intros [v Hv]. exists (key, v). split; [done|]. by apply elem_of_map_to_list.
Qed.

Lemma Object_keys_length obj : length (Object_keys obj) = size (dom obj).
Proof.
  unfold Object_keys. by rewrite length_fmap, length_map_to_list, size_dom.
Qed.

Lemma has_key_dom key obj : has_key key obj = true ↔ key ∈ dom obj.
Proof. unfold has_key. by rewrite bool_decide_eq_true, elem_of_dom. Qed.

Lemma all_present_spec keys obj :
  all_present keys obj = true ↔ ∀ key, key ∈ keys → key ∈ dom obj.
Proof.
  induction keys as [|key rest IH]; simpl.
  - split; [|done]. intros _ key Hin. by apply elem_of_nil in Hin.
  - destruct (has_key key obj) eqn:Hk; simpl.
    + rewrite IH. apply has_key_dom in Hk. split.
      * intros Hrest k [->|Hin]%elem_of_cons; auto.
      * intros Hall k Hin. apply Hall. by right.
    + split; [done|]. intros Hall.
      assert (has_key key obj = true) as Hk'; [|congruence].
      apply has_key_dom, Hall. by left.
Qed.

Lemma all_allowed_spec objKeys (allowedSet : gset string) :
  all_allowed objKeys allowedSet = true ↔ ∀ key, key ∈ objKeys → key ∈ allowedSet.
Proof.
  induction objKeys as [|key rest IH]; simpl.
  - split; [|done]. intros _ key Hin. by apply elem_of_nil in Hin.
  - case_bool_decide as Hk; simpl.
    + rewrite IH. split.
      * intros Hrest k [->|Hin]%elem_of_cons; auto.
      * intros Hall k Hin. apply Hall. by right.
    + split; [done|]. intros Hall. destruct Hk. apply Hall. by left.
Qed.

Lemma precheck_spec obj (required optional : list string) :
  (Z.of_nat (length (Object_keys obj))
     >? Z.of_nat (size (list_to_set (C := gset string) (required ++ optional)))) = true
  → ¬ dom obj ⊆ list_to_set required ∪ list_to_set optional.
Proof.
  rewrite list_to_set_app_L, Object_keys_length, Z.gtb_gt.
  intros Hlt Hsub. apply subseteq_size in Hsub. lia.
Qed.


Lemma Keysamount_size obj : Keysamount obj = Z.of_nat (size obj).
Proof. unfold Keysamount. by rewrite Object_keys_length, size_dom. Qed.

(** C7.  With [max] omitted, [KeysInRange(obj, n)] is true exactly when
    [KeysInRangeDetailed(obj, n, n)] is [0]; with [max] omitted both
    functions test [count == n]; with [max] supplied [KeysInRange] is true
    exactly when [min <= count <= max]. *)
Theorem KeysInRange_exact_and_range obj (n min max : Z) :
  (KeysInRange obj n None = true ↔ KeysInRangeDetailed obj n (Some n) = 0)
  ∧ (KeysInRange obj n None = true ↔ Keysamount obj = n)
  ∧ (KeysInRangeDetailed obj n None = 0 ↔ Keysamount obj = n)
  ∧ (KeysInRange obj min (Some max) = true ↔ min ≤ Keysamount obj ≤ max).
Proof.
  unfold KeysInRange, KeysInRangeDetailed.
  generalize (Keysamount obj). intros keyCount.
  rewrite !Z.geb_leb, !Z.gtb_ltb, !andb_true_iff, !Z.leb_le.
  destruct (Z.ltb_spec keyCount n), (Z.ltb_spec n keyCount); lia.
Qed.

End Keys.

(** The scenarios of the spec, on [{a:1, b:2, c:3}]. *)
Example Keysamount_abc : Keysamount abc = 3.
Proof. by vm_compute. Qed.

Example KeysInRangeDetailed_abc :
  KeysInRangeDetailed abc 5 (Some 10) = -1 ∧ KeysInRangeDetailed abc 1 (Some 1) = 1.
Proof. by vm_compute. Qed.

Example AllowedKeys_abc :
  AllowedKeys abc ["a"; "b"] ["c"; "d"] = true
  ∧ AllowedKeys abc ["a"; "b"] [] = false
  ∧ AllowedKeys abc ["a"; "z"] ["b"; "c"] = false.
Proof. by vm_compute. Qed.

End ObjectKeysFacts.

(** ** The string primitives *)
Module JsFacts.

Lemma prefix_app (sub s : string) :
  String.prefix sub s = true ↔ ∃ rest, s = sub +:+ rest.
Proof.
  revert s. induction sub as [|c sub IH]; intros s.
  - split; [intros _; by exists s|]. intros _. by destruct s.
  - destruct s as [|d s]; cbn [String.prefix].
    + split; [done|]. intros [rest Hrest]. discriminate Hrest.
    + destruct (ascii_dec c d) as [->|Hne].
      * rewrite IH. split; intros [rest Hrest]; exists rest.
        -- change (String d s = String d (sub +:+ rest)). by rewrite Hrest.
        -- by injection Hrest.
      * split; [done|]. intros [rest Hrest]. injection Hrest as Hc _. congruence.
Qed.

(** [includes] is the substring test. *)
Lemma includes_spec (s sub : string) :
  includes s sub = true ↔ ∃ before after, s = before +:+ sub +:+ after.
Proof.
  induction s as [|c s IH].
  - cbn [includes]. rewrite orb_false_r, prefix_app. split.
    + intros [rest Hrest]. exists "", rest. exact Hrest.
    + intros (before & after & Hs).
      destruct before as [|d before]; [by exists after|discriminate Hs].
  - cbn [includes]. rewrite orb_true_iff, prefix_app, IH. split.
    + intros [[rest Hrest]|(before & after & Hs)].
      * exists "", rest. exact Hrest.
      * exists (String c before), after.
        change (String c s = String c (before +:+ sub +:+ after)). by rewrite Hs.
    + intros (before & after & Hs). destruct before as [|d before].
      * left. by exists after.
      * right. exists before, after. by injection Hs.
Qed.

(** [first_segment] is the text before the first comma. *)
Lemma first_segment_spec (s : string) :
  includes (first_segment s) "," = false
  ∧ (s = first_segment s ∨ ∃ rest, s = first_segment s +:+ "," +:+ rest).
Proof.
  induction s as [|c s [IHn IHs]]; cbn [first_segment]; [by split; [|left]|].
  destruct (Ascii.eqb_spec c ",") as [->|Hne].
  - split; [done|]. right. by exists s.
  - split.
    + cbn [includes String.prefix]. rewrite IHn.
      destruct (ascii_dec "," c) as [<-|_]; [done|by rewrite orb_false_r].
    + destruct IHs as [IHs|[rest IHs]].
      * left. congruence.
      * right. exists rest.
        change (String c s = String c (first_segment s +:+ "," +:+ rest)).
        congruence.
Qed.

Example trim_route : trim "  POST /api/users " = "POST /api/users" ∧ trim " " = "".
Proof. done. Qed.

Example iso_time :
  replace_first "Z" "" (replace_first "T" " " "2025-12-29T19:52:09.123Z")
  = "2025-12-29 19:52:09.123".
Proof. done. Qed.

End JsFacts.

(** ** The message store *)
Module ConfigsFacts.
Import Configs Spec.

Lemma get_opt_lookup (o : value) (k : string) : get_opt o k = Ok (lookup o k).
Proof. by destruct o. Qed.

Lemma get_lookup (o : value) (k : string) :
  nullish o = false → get o k = Ok (lookup o k).
Proof. by destruct o. Qed.

Lemma get_nullish (o : value) (k : string) :
  nullish o = true → get o k = Throw TypeError.
Proof. by destruct o. Qed.

Lemma truthy_not_nullish (v : value) : truthy v = true → nullish v = false.
Proof. by destruct v. Qed.

Lemma string_entry_lookup (pack : value) (code : string) :
  string_entry pack code =
  Ok (if truthy pack
      then match lookup pack code with VStr text => Some text | _ => None end
      else None).
Proof.
  unfold string_entry. destruct (truthy pack) eqn:Hpack; [|done].
  by rewrite (get_lookup _ _ (truthy_not_nullish _ Hpack)).
Qed.

(** [getMessage] returns for every state of the store. *)
Lemma getMessage_total (lang code : string) (fallback : option string) (st : state) :
  ∃ result, getMessage lang code fallback st = Ok result.
Proof.
  unfold getMessage. rewrite !get_opt_lookup. simpl.
  rewrite !string_entry_lookup. simpl.
  destruct (if truthy (lookup _ lang) then _ else _); [by eexists|].
  destruct (if truthy (lookup _ "en") then _ else _); by eexists.
Qed.

Lemma string_entry_as_value (catalog : gmap string (gmap string value))
    (lang code : string) :
  string_entry (lookup (as_value catalog) lang) code = Ok (text_at catalog lang code).
Proof.
  rewrite string_entry_lookup. unfold text_at, as_value. simpl.
  rewrite lookup_fmap. destruct (catalog !! lang) as [pack|]; simpl; [|done].
  by destruct (pack !! code) as [[]|].
Qed.


(** The same order on every state of the store, whatever its shape. *)
Lemma getMessage_order_any_store (lang code : string) (fallback : option string)
    (st : state) :
  let text_in pack :=
    if truthy pack
    then match lookup pack code with VStr text => Some text | _ => None end
    else None in
  getMessage lang code fallback st
  = Ok (match text_in (lookup (runtimeResponses st) lang) with
        | Some text => Some text
        | None =>
            match text_in (lookup (runtimeResponses st) "en") with
            | Some text => Some text
            | None => fallback
            end
        end).
Proof.
  cbv zeta. unfold getMessage. rewrite !get_opt_lookup. cbn [mbind Exc_bind].
  rewrite !string_entry_lookup. cbn [mbind Exc_bind].
  destruct (if truthy (lookup _ lang) then _ else _); [done|].
  by destruct (if truthy (lookup _ "en") then _ else _).
Qed.

(** A message set with [setMessage] is the one [getMessage] finds. *)
Lemma getMessage_setMessage (lang code text : string) (fallback : option string)
    (st : state) :
  getMessage lang code fallback (setMessage lang code text st) = Ok (Some text).
Proof.
  unfold getMessage, setMessage. simpl.
  rewrite lookup_insert_eq. simpl. by rewrite lookup_insert_eq.
Qed.

End ConfigsFacts.

(** ** The error handler *)
Module HandleErrorFacts.
Import Configs HandleError Spec ConfigsFacts.

Lemma lookup_truthy_not_nullish (o : value) (k : string) :
  truthy (lookup o k) = true → nullish o = false.
Proof. by destruct o. Qed.

Lemma lang_of_spec (req : Req.t) :
  lang_of req = if has_language_source req then Ok (language req) else Throw TypeError.
Proof.
  unfold lang_of, has_language_source, language.
  destruct (truthy (VStr (str_or _ _))); [done|]. simpl.
  destruct (Req.headers req) as [h|]; simpl; [|done].
  by destruct (h !! "accept-language") as [accept|]; simpl;
    [destruct (negb (String.eqb accept ""))|].
Qed.

Lemma selected_truthy (responses : value) (lang : string) :
  truthy (selected responses lang) = true.
Proof.
  unfold selected, first_truthy. simpl.
  destruct (truthy (lookup responses lang)) eqn:H1; [done|].
  by destruct (truthy (lookup responses "en")) eqn:H2.
Qed.

Lemma selected_not_nullish (responses : value) (lang : string) :
  nullish (selected responses lang) = false.
Proof. apply truthy_not_nullish, selected_truthy. Qed.

Lemma select_responses_spec (responses : value) (lang : string) :
  select_responses responses lang =
  if nullish responses then Throw TypeError else Ok (selected responses lang).
Proof.
  unfold select_responses, selected, first_truthy.
  destruct (nullish responses) eqn:Hn.
  - rewrite !get_nullish by done. reflexivity.
  - rewrite !get_lookup by done. simpl.
    destruct (truthy (lookup responses lang)); [done|].
    by destruct (truthy (lookup responses "en")).
Qed.

Lemma scan_dupes_spec (possibleResponses : value) (raw : string)
    (fields : list string) (message : value) :
  nullish possibleResponses = false →
  scan_dupes possibleResponses raw fields message
  = Ok (dupes_choice possibleResponses raw fields message).
Proof.
  intros Hn. unfold dupes_choice.
  induction fields as [|field rest IH]; simpl; [done|].
  destruct (includes raw field); [|done].
  rewrite get_lookup by done. simpl. apply get_opt_lookup.
Qed.

Lemma scan_validation_spec (possibleResponses : value)
    (errors : list Err.FieldError) (message : value) :
  nullish possibleResponses = false →
  scan_validation possibleResponses errors message
  = Ok (validation_choice possibleResponses errors message).
Proof.
  intros Hn. unfold validation_choice.
  induction errors as [|fe rest IH]; simpl; [done|].
  rewrite !get_lookup by done. simpl. rewrite get_opt_lookup. simpl.
  destruct (truthy (lookup _ (to_string (fieldName fe)))) eqn:Hentry; [|done].
  apply get_lookup. by apply lookup_truthy_not_nullish in Hentry.
Qed.

Lemma primary_message_spec (prefs : option Prefs) (possibleResponses : value)
    (err : Err.t) :
  nullish possibleResponses = false →
  primary_message prefs possibleResponses err
    (str_or (Err.code err) "INTERNAL_SERVER_ERROR") (str_or (Err.message err) "")
  = if dup_related err && negb (bool_decide (is_Some prefs)) then Throw TypeError
    else Ok (primary_choice prefs possibleResponses err).
Proof.
  intros Hn. unfold primary_message, primary_choice, dup_related, validation_with_errors.
  destruct (_ || _); simpl.
  - destruct prefs as [p|]; simpl; [|done]. by apply scan_dupes_spec.
  - destruct (_ && _); [by apply scan_validation_spec|done].
Qed.

Lemma fallback_message_spec (possibleResponses : value) (status : Z)
    (code : string) (message : value) :
  nullish possibleResponses = false →
  fallback_message possibleResponses status code message
  = Ok (if truthy message then message
        else first_truthy (fallback_chain possibleResponses status code)).
Proof.
  intros Hn. unfold fallback_message, fallback_chain, first_truthy.
  destruct (truthy message); simpl; [done|].
  rewrite !get_lookup by done. simpl.
  destruct (truthy (lookup possibleResponses code)); [done|].
  destruct (status >=? 500); simpl.
  - destruct (truthy (of_str (serverDefaultMessages !! code))); [done|].
    rewrite get_opt_lookup. simpl. unfold or.
    by destruct (truthy (lookup (lookup _ "general") "error")).
  - rewrite get_opt_lookup. simpl. unfold or.
    by destruct (truthy (lookup (lookup _ "general") "error")).
Qed.

(** The handler raises exactly on the inputs that are not well formed, and
    otherwise computes the resolution of the spec. *)
Lemma resolve_spec (st : state) (err : Err.t) (req : Req.t) :
  resolve st err req =
  if well_formed st err req then
    let possibleResponses := selected (runtimeResponses st) (language req) in
    let primary := primary_choice (runtimePrefs st) possibleResponses err in
    Ok {| statusCode := num_or (Err.status err) 500;
          code := str_or (Err.code err) "INTERNAL_SERVER_ERROR";
          rawErrorMessage := str_or (Err.message err) "";
          responseMessage :=
            if truthy primary then primary
            else first_truthy (fallback_chain possibleResponses
                                 (num_or (Err.status err) 500)
                                 (str_or (Err.code err) "INTERNAL_SERVER_ERROR"));
          userCaused := isUserError (num_or (Err.status err) 500)
                          (str_or (Err.code err) "INTERNAL_SERVER_ERROR") |}
  else Throw TypeError.
Proof.
  unfold resolve, well_formed, getResponses, getPrefs.
  rewrite lang_of_spec. destruct (has_language_source req); simpl; [|done].
  rewrite select_responses_spec.
  destruct (nullish (runtimeResponses st)); simpl; [done|].
  rewrite primary_message_spec by apply selected_not_nullish.
  destruct (dup_related err); simpl.
  - destruct (runtimePrefs st) as [p|]; simpl; [|done].
    by rewrite fallback_message_spec by apply selected_not_nullish.
  - by rewrite fallback_message_spec by apply selected_not_nullish.
Qed.

Lemma str_or_empty (a : option string) : str_or a "" = default "" a.
Proof. destruct a as [text|]; simpl; [|done]. by destruct text. Qed.



(** C10.  A falsy [status] (absent or [0]) resolves to [500], a falsy
    [code] (absent or the empty string) to "INTERNAL_SERVER_ERROR", and a
    falsy [message] to the empty string. *)
Theorem falsy_fields_take_defaults (st : state) (err : Err.t) (req : Req.t) :
  well_formed st err req = true →
  ∃ r,
    resolve st err req = Ok r
    ∧ (truthy (of_num (Err.status err)) = false → statusCode r = 500)
    ∧ (truthy (of_str (Err.code err)) = false → code r = "INTERNAL_SERVER_ERROR")
    ∧ (truthy (of_str (Err.message err)) = false → rawErrorMessage r = "")
    ∧ (Err.status err = Some 0 → statusCode r = 500)
    ∧ (Err.code err = Some "" → code r = "INTERNAL_SERVER_ERROR")
    ∧ (Err.message err = Some "" → rawErrorMessage r = "").
Proof.
  intros Hwf. rewrite resolve_spec, Hwf. cbv zeta. eexists. split; [reflexivity|].
  cbn [code rawErrorMessage statusCode].
  repeat split.
  - destruct (Err.status err) as [n|]; simpl; [|done]. by intros ->.
  - destruct (Err.code err) as [c|]; simpl; [|done]. by intros ->.
  - destruct (Err.message err) as [m|]; simpl; [|done]. by intros ->.
  - by intros ->.
  - by intros ->.
  - by intros ->.
Qed.

Lemma logged_app (t1 t2 : list Event) : logged (t1 ++ t2) = (logged t1 ++ logged t2)%list.
Proof. apply omap_app. Qed.

Lemma without_log_app (t1 t2 : list Event) :
  without_log (t1 ++ t2) = (without_log t1 ++ without_log t2)%list.
Proof. apply List.filter_app. Qed.

Lemma report_only_logs (now : string) (r : Resolution) (err : Err.t) (req : Req.t) :
  without_log (report now r err req) = [].
Proof.
  unfold report. rewrite !without_log_app.
  by destruct (truthy (VStr (routeInfo req))), (truthy (VStr (requestId req))).
Qed.

Lemma report_bordered (now : string) (r : Resolution) (err : Err.t) (req : Req.t) :
  hd_error (logged (report now r err req))
    = Some ("===================== ERROR REPORT =====================", "red")
  ∧ last (logged (report now r err req))
    = Some ("========================================================", "red").
Proof.
  unfold report.
  by destruct (truthy (VStr (routeInfo req))), (truthy (VStr (requestId req))).
Qed.

(** The trace of the handler on well-formed inputs. *)
Lemma errorHandler_spec (st : state) (now : string) (err : Err.t) (req : Req.t) :
  well_formed st err req = true →
  ∃ r, resolve st err req = Ok r
    ∧ errorHandler st now err req
      = Ok ((if userCaused r then [] else report now r err req) ++ respond r)%list.
Proof.
  intros Hwf. unfold errorHandler. rewrite resolve_spec, Hwf. cbv zeta.
  eexists. split; [reflexivity|]. simpl. by destruct (isUserError _ _).
Qed.

Lemma errorHandler_raises (st : state) (now : string) (err : Err.t) (req : Req.t) :
  well_formed st err req = false → errorHandler st now err req = Throw TypeError.
Proof. intros Hwf. unfold errorHandler. by rewrite resolve_spec, Hwf. Qed.


Lemma respond_readings (r : Resolution) :
  json_bodies (respond r)
    = [{| Body.status := "error"; Body.code := code r;
          Body.message := responseMessage r |}]
  ∧ status_lines (respond r) = [statusCode r]
  ∧ next_calls (respond r) = []
  ∧ logged (respond r) = [].
Proof. done. Qed.

Lemma report_readings (now : string) (r : Resolution) (err : Err.t) (req : Req.t) :
  json_bodies (report now r err req) = []
  ∧ status_lines (report now r err req) = []
  ∧ next_calls (report now r err req) = [].
Proof.
  unfold report.
  by destruct (truthy (VStr (routeInfo req))), (truthy (VStr (requestId req))).
Qed.

Lemma report_messages (now : string) (r : Resolution) (err : Err.t) (req : Req.t) :
  ("UserMessage: " +:+ to_string (responseMessage r), "cyan")
    ∈ logged (report now r err req)
  ∧ ("RawMessage: " +:+ rawErrorMessage r, "white") ∈ logged (report now r err req).
Proof.
  unfold report.
  destruct (truthy (VStr (routeInfo req))), (truthy (VStr (requestId req)));
    simpl; rewrite !elem_of_cons; naive_solver.
Qed.

Lemma first_truthy_truthy (candidates : list value) :
  Exists (λ v, truthy v = true) candidates → truthy (first_truthy candidates) = true.
Proof.
  unfold first_truthy. induction 1 as [v rest Hv|v rest _ IH]; simpl.
  - by rewrite Hv.
  - by destruct (truthy v) eqn:Hv.
Qed.

Lemma first_truthy_text (candidates : list value) :
  Forall (λ v, text_or_absent v = true) candidates →
  truthy (first_truthy candidates) = true →
  is_string (first_truthy candidates) = true.
Proof.
  unfold first_truthy. induction 1 as [|v rest Hv _ IH]; simpl; [done|].
  destruct (truthy v) eqn:Htruthy; [|done]. simpl. intros _. by destruct v.
Qed.

Lemma text_truthy_is_string (v : value) :
  text_or_absent v = true → truthy v = true → is_string v = true.
Proof. by destruct v. Qed.

Lemma selected_empty (lang : string) : selected (VObj ∅) lang = VObj ∅.
Proof. unfold selected, first_truthy. simpl. by rewrite !lookup_empty. Qed.

Lemma errorHandler_of_resolve (st : state) (now : string) (err : Err.t)
    (req : Req.t) (r : Resolution) :
  resolve st err req = Ok r →
  errorHandler st now err req
  = Ok ((if userCaused r then [] else report now r err req) ++ respond r)%list.
Proof. intros Hr. unfold errorHandler. rewrite Hr. simpl. by destruct (userCaused r). Qed.

(** What the trace of the handler holds besides the report. *)
Lemma trace_readings (now : string) (r : Resolution) (err : Err.t) (req : Req.t) :
  let trace := ((if userCaused r then [] else report now r err req) ++ respond r)%list in
  next_calls trace = []
  ∧ status_lines trace = [statusCode r]
  ∧ json_bodies trace
    = [{| Body.status := "error"; Body.code := code r;
          Body.message := responseMessage r |}].
Proof.
  cbv zeta. unfold next_calls, status_lines, json_bodies. rewrite !omap_app.
  destruct (report_readings now r err req) as (Hj & Hs & Hn).
  unfold next_calls, status_lines, json_bodies in Hj, Hs, Hn.
  by destruct (userCaused r); [|rewrite Hj, Hs, Hn].
Qed.









Lemma falsy_fields_take_defaults_witness :
  well_formed initial Samples.falsy_error Samples.plain_request = true
  ∧ ∃ r,
      resolve initial Samples.falsy_error Samples.plain_request = Ok r
      ∧ (truthy (of_num (Err.status Samples.falsy_error)) = false → statusCode r = 500)
      ∧ (truthy (of_str (Err.code Samples.falsy_error)) = false →
         code r = "INTERNAL_SERVER_ERROR")
      ∧ (truthy (of_str (Err.message Samples.falsy_error)) = false →
         rawErrorMessage r = "")
      ∧ (Err.status Samples.falsy_error = Some 0 → statusCode r = 500)
      ∧ (Err.code Samples.falsy_error = Some "" → code r = "INTERNAL_SERVER_ERROR")
      ∧ (Err.message Samples.falsy_error = Some "" → rawErrorMessage r = "").
Proof.
  split; [reflexivity|].
  apply (falsy_fields_take_defaults initial Samples.falsy_error Samples.plain_request).
  reflexivity.
Defined.


(** The handler raises whenever the store was configured without a
    catalog, and, in the duplicate-entry branch, without preferences. *)
Lemma handler_raises_on_missing_configuration (now : string) (err : Err.t)
    (req : Req.t) (prefs : option Prefs) (responses : value) :
  errorHandler (configure VUndef prefs initial) now err req = Throw TypeError
  ∧ (dup_related err = true →
     errorHandler (configure responses None initial) now err req = Throw TypeError).
Proof.
  split.
  - apply errorHandler_raises. unfold well_formed. simpl. by rewrite andb_false_r.
  - intros Hdup. apply errorHandler_raises. unfold well_formed. rewrite Hdup. simpl.
    by rewrite andb_false_r.
Qed.

(** The duplicate-entry scenario of the spec: the answer is the [dupes]
    text, the error is user-caused and nothing is logged. *)
Example duplicate_email_scenario :
  errorHandler (configure Samples.email_catalog (Some Samples.email_prefs) initial)
    Samples.noon Samples.email_error Samples.plain_request
  = Ok [Res_status 409;
        Res_json {| Body.status := "error"; Body.code := "ER_DUP_ENTRY";
                    Body.message := VStr "Email exists." |}].
Proof. by vm_compute. Qed.

(** Language detection: the first segment of [Accept-Language], and the
    English messages when the catalog has none for it. *)
Example german_request_language :
  lang_of Samples.german_request = Ok "de-DE"
  ∧ select_responses Samples.email_catalog "de-DE"
    = Ok (VObj {[ "dupes" := VObj {[ "email" := VStr "Email exists." ]} ]}).
Proof. by vm_compute. Qed.

(** The whole trace for a server-caused error: the report, then the
    response. *)
Example database_error_report :
  errorHandler initial Samples.noon Samples.db_error Samples.german_request
  = Ok [Coloredlog_call "===================== ERROR REPORT =====================" "red";
        Coloredlog_call "Time: 2025-12-29 12:00:00.000" "yellow";
        Coloredlog_call "Route: GET /" "yellow";
        Coloredlog_call "RequestId: abc123" "yellow";
        Coloredlog_call "Status: 500" "magenta";
        Coloredlog_call "Code: DATABASE_ERROR" "magenta";
        Coloredlog_call "UserMessage: conn timeout" "cyan";
        Coloredlog_call "RawMessage: conn timeout" "white";
        Coloredlog_call "Stack:" "gray";
        Coloredlog_call "N/A" "gray";
        Coloredlog_call "========================================================" "red";
        Res_status 500;
        Res_json {| Body.status := "error"; Body.code := "DATABASE_ERROR";
                    Body.message := VStr "conn timeout" |}].
Proof. by vm_compute. Qed.

End HandleErrorFacts.

(** ** The colors of the report *)
Module ColorFacts.
Import Configs HandleError Spec.

Lemma report_colors_invalid :
  Colorlog.isValid "red" = false ∧ Colorlog.isValid "yellow" = false
  ∧ Colorlog.isValid "white" = false
  ∧ ColorlogAnsi.isValid "red" = false ∧ ColorlogAnsi.isValid "yellow" = false
  ∧ ColorlogAnsi.isValid "white" = false.
Proof. by vm_compute. Qed.

(** C5 fails on the code.  The report of a server-caused error passes the
    tokens red, yellow, magenta, cyan, white and gray; neither version of
    the [named] pattern lists red, yellow or white, so the banner, the
    footer, the time, route and request-id lines and the raw message are
    printed plain. *)
Theorem report_colors_rejected :
  ∃ trace,
    errorHandler initial Samples.noon Samples.db_error Samples.plain_request = Ok trace
    ∧ (logged trace).*2
      = ["red"; "yellow"; "yellow"; "magenta"; "magenta"; "cyan"; "white";
         "gray"; "gray"; "red"]
    ∧ Colorlog.isValid <$> ["red"; "yellow"; "magenta"; "cyan"; "white"; "gray"]
      = [false; false; true; true; false; true]
    ∧ ColorlogAnsi.isValid <$> ["red"; "yellow"; "magenta"; "cyan"; "white"; "gray"]
      = [false; false; true; true; false; true]
    ∧ (∀ message color, color ∈ ["red"; "yellow"; "white"] →
       Colorlog.Coloredlog message color = [[message]]
       ∧ ∀ round_percent isBrowser,
           ColorlogAnsi.Coloredlog round_percent isBrowser message color false
           = [[message]]).
Proof.
  eexists. split; [vm_compute; reflexivity|].
  split; [by vm_compute|]. split; [by vm_compute|]. split; [by vm_compute|].
  destruct report_colors_invalid as (Hr & Hy & Hw & Hr' & Hy' & Hw').
  intros message color Hcolor. unfold Colorlog.Coloredlog, ColorlogAnsi.Coloredlog.
  rewrite !elem_of_cons, elem_of_nil in Hcolor.
  destruct Hcolor as [->|[->|[->|[]]]].
  - by rewrite Hr, Hr'.
  - by rewrite Hy, Hy'.
  - by rewrite Hw, Hw'.
Qed.

(** The tokens magenta, cyan and gray are accepted and styled. *)
Lemma accepted_colors_styled (message : string) :
  Colorlog.Coloredlog message "cyan"
    = [["%c" +:+ message; "color: cyan; font-weight: bold;"]]
  ∧ ∀ round_percent,
      ColorlogAnsi.Coloredlog round_percent false message "cyan" false
      = [[ColorlogAnsi.ESC +:+ "[36m" +:+ "" +:+ message +:+ ColorlogAnsi.ESC +:+ "[0m"]].
Proof.
  assert (Colorlog.isValid "cyan" = true) as H1 by by vm_compute.
  assert (ColorlogAnsi.isValid "cyan" = true) as H2 by by vm_compute.
  unfold Colorlog.Coloredlog, ColorlogAnsi.Coloredlog. rewrite H1, H2.
  split; [done|]. intros round_percent.
  assert (ColorlogAnsi.colorToAnsi round_percent "cyan"
          = Some (ColorlogAnsi.ESC +:+ "[36m")) as -> by by vm_compute.
  done.
Qed.

End ColorFacts.

(** * Further properties *)

(** ** Object-key validators *)
Module ObjectKeysMore.
Import ObjectKeys ObjectKeysFacts Samples.
Section Keys.
Context {V : Type}.
Implicit Types obj : gmap string V.

Lemma AllowedKeys_sets obj (required optional : list string) :
  AllowedKeys obj required optional = true ↔
  dom obj ⊆ list_to_set required ∪ list_to_set optional
  ∧ list_to_set required ⊆ dom obj.
Proof.
  unfold AllowedKeys.
  destruct (_ >? _) eqn:Hcount.
  - split; [done|]. intros [Hsubset _]. by apply precheck_spec in Hcount.
  - destruct (all_present required obj) eqn:Hreq; simpl.
    + pose proof (proj1 (all_present_spec required obj) Hreq) as Hpresent.
      destruct (all_allowed _ _) eqn:Hall; simpl.
      * split; [|done]. intros _. split.
        -- intros key Hkey. rewrite <- list_to_set_app_L.
           eapply all_allowed_spec; [exact Hall|]. by apply Object_keys_elem.
        -- intros key Hkey. apply Hpresent. by apply elem_of_list_to_set in Hkey.
      * split; [done|]. intros [Hsubset _].
        assert (all_allowed (Object_keys obj) (list_to_set (required ++ optional)) = true)
          as Hall'; [|congruence].
        apply all_allowed_spec. intros key Hkey. rewrite list_to_set_app_L.
        by apply Hsubset, Object_keys_elem.
    + split; [done|]. intros [_ Hall].
      assert (all_present required obj = true) as Hreq'; [|congruence].
      apply all_present_spec. intros key Hkey. apply Hall.
      by apply elem_of_list_to_set.
Qed.

(** X1.  [KeysInRangeDetailed] answers [-1] exactly below [min] (also when
    [min] exceeds [max]), [1] exactly when the count reaches [min] and
    exceeds the upper bound, [0] exactly inside the range; [KeysInRange] is
    true exactly when [KeysInRangeDetailed] is [0], with or without [max]. *)
Theorem KeysInRangeDetailed_cases obj (min : Z) (max : option Z) :
  (KeysInRangeDetailed obj min max = -1 ↔ Keysamount obj < min)
  ∧ (KeysInRangeDetailed obj min max = 1 ↔
     min ≤ Keysamount obj ∧ default min max < Keysamount obj)
  ∧ (KeysInRangeDetailed obj min max = 0 ↔ min ≤ Keysamount obj ≤ default min max)
  ∧ (KeysInRange obj min max = true ↔ KeysInRangeDetailed obj min max = 0).
Proof.
  unfold KeysInRange, KeysInRangeDetailed.
  generalize (Keysamount obj). intros keyCount.
  replace (match max with Some m => m | None => min end) with (default min max)
    by by destruct max.
  generalize (default min max). intros top.
  rewrite !Z.geb_leb, !Z.gtb_ltb, !andb_true_iff, !Z.leb_le.
  destruct (Z.ltb_spec keyCount min), (Z.ltb_spec top keyCount); lia.
Qed.



End Keys.



End ObjectKeysMore.

(** ** The message store *)
Module ConfigsMore.
Import Configs Spec ConfigsFacts.



Lemma object_fields (v : value) :
  not_an_object v = false → ∃ fields, v = VObj fields.
Proof.
  unfold not_an_object. destruct v as [| |[]|n|s|fields]; simpl;
    rewrite ?orb_true_r; try done. by exists fields.
Qed.





End ConfigsMore.

(** ** The error handler *)
Module HandleErrorMore.
Import Configs HandleError Spec ConfigsFacts HandleErrorFacts.


Lemma selected_english (responses : value) (lang : string) :
  truthy (lookup responses lang) = false →
  selected responses lang = selected responses "en".
Proof.
  intros Hlang. unfold selected, first_truthy. simpl. rewrite Hlang.
  by destruct (truthy (lookup responses "en")).
Qed.



Lemma find_first {A : Type} (p : A → bool) (before after : list A) (x : A) :
  Forall (λ a, p a = false) before → p x = true →
  List.find p (before ++ x :: after) = Some x.
Proof.
  intros Hbefore Hx. induction Hbefore as [|a rest Ha _ IH]; simpl.
  - by rewrite Hx.
  - by rewrite Ha.
Qed.

Lemma find_none {A : Type} (p : A → bool) (l : list A) :
  Forall (λ a, p a = false) l → List.find p l = None.
Proof.
  intros Hl. induction Hl as [|a rest Ha _ IH]; simpl; [done|]. by rewrite Ha.
Qed.





(** X15.  Status, code and classification of the answer depend on the
    error alone: the configuration and the request can change the message
    only. *)
Theorem configuration_changes_only_the_message (st st' : state) (err : Err.t)
    (req req' : Req.t) :
  well_formed st err req = true →
  well_formed st' err req' = true →
  ∃ r r',
    resolve st err req = Ok r
    ∧ resolve st' err req' = Ok r'
    ∧ statusCode r = statusCode r'
    ∧ code r = code r'
    ∧ rawErrorMessage r = rawErrorMessage r'
    ∧ userCaused r = userCaused r'.
Proof.
  intros Hwf Hwf'. rewrite !resolve_spec, Hwf, Hwf'. cbv zeta.
  eexists. eexists. split; [reflexivity|]. split; [reflexivity|]. done.
Qed.





Lemma configuration_changes_only_the_message_witness :
  let st' := configure Samples.email_catalog (Some Samples.email_prefs) initial in
  well_formed initial Samples.email_error Samples.plain_request = true
  ∧ well_formed st' Samples.email_error Samples.german_request = true
  ∧ ∃ r r',
      resolve initial Samples.email_error Samples.plain_request = Ok r
      ∧ resolve st' Samples.email_error Samples.german_request = Ok r'
      ∧ statusCode r = statusCode r'
      ∧ code r = code r'
      ∧ rawErrorMessage r = rawErrorMessage r'
      ∧ userCaused r = userCaused r'.
Proof.
  cbv zeta. split; [reflexivity|]. split; [reflexivity|].
  apply (configuration_changes_only_the_message initial
           (configure Samples.email_catalog (Some Samples.email_prefs) initial)
           Samples.email_error Samples.plain_request Samples.german_request);
    reflexivity.
Defined.

Lemma append_nil_r (s : string) : s +:+ "" = s.
Proof.
  induction s as [|c s IH]; [done|].
  change (String c (s +:+ "") = String c s). by rewrite IH.
Qed.

Lemma replace_first_skip (c : ascii) (r a b : string) :
  includes a (String c EmptyString) = false →
  replace_first c r (a +:+ b) = a +:+ replace_first c r b.
Proof.
  induction a as [|d a IH]; [done|].
  cbn [includes String.prefix]. intros Hnot.
  apply orb_false_iff in Hnot as [Hhead Htail].
  change (replace_first c r (String d (a +:+ b)) = String d (a +:+ replace_first c r b)).
  cbn [replace_first].
  destruct (Ascii.eqb_spec d c) as [->|Hne].
  - destruct (ascii_dec c c) as [_|Hcc]; [|done]. by destruct a.
  - by rewrite IH.
Qed.

Lemma replace_first_here (c : ascii) (r b : string) :
  replace_first c r (String c b) = r +:+ b.
Proof. cbn [replace_first]. by rewrite Ascii.eqb_refl. Qed.

(** X16.  For a clock text [date T time Z] (the shape of
    [toISOString()]), the second line of the report is the time with the [T]
    replaced by a space and the [Z] removed. *)
Theorem report_time_line (date time : string) (r : Resolution) (err : Err.t)
    (req : Req.t) :
  includes date "T" = false →
  includes date "Z" = false →
  includes time "Z" = false →
  logged (report (date +:+ "T" +:+ time +:+ "Z") r err req) !! 1%nat
  = Some ("Time: " +:+ date +:+ " " +:+ time, "yellow").
Proof.
  intros HdateT HdateZ HtimeZ. unfold report.
  rewrite (replace_first_skip "T" " " date _ HdateT).
  change ("T" +:+ time +:+ "Z") with (String "T" (time +:+ "Z")).
  rewrite replace_first_here.
  rewrite (replace_first_skip "Z" "" date _ HdateZ).
  change (" " +:+ time +:+ "Z") with (String " " (time +:+ "Z")).
  cbn [replace_first]. change (Ascii.eqb " " "Z") with false. cbv iota.
  rewrite (replace_first_skip "Z" "" time _ HtimeZ).
  change (replace_first "Z" "" "Z") with "". by rewrite append_nil_r.
Qed.

Lemma report_time_line_witness :
  includes "2025-12-29" "T" = false
  ∧ includes "2025-12-29" "Z" = false
  ∧ includes "19:52:09.123" "Z" = false
  ∧ logged (report "2025-12-29T19:52:09.123Z"
              {| statusCode := 500; code := "DATABASE_ERROR";
                 rawErrorMessage := "conn timeout";
                 responseMessage := VStr "conn timeout"; userCaused := false |}
              Samples.db_error Samples.plain_request) !! 1%nat
    = Some ("Time: 2025-12-29 19:52:09.123", "yellow").
Proof.
  split; [reflexivity|]. split; [reflexivity|]. split; [reflexivity|].
  apply (report_time_line "2025-12-29" "19:52:09.123"); reflexivity.
Defined.

Lemma str_or_falsy (a : option string) (d : string) :
  truthy (of_str a) = false → str_or a d = d.
Proof. destruct a as [text|]; [|done]. simpl. by intros ->. Qed.



Lemma first_segment_app (first rest : string) :
  includes first "," = false → first_segment (first +:+ "," +:+ rest) = first.
Proof.
  induction first as [|c first IH]; [done|].
  cbn [includes String.prefix]. intros Hnot.
  apply orb_false_iff in Hnot as [Hhead Htail].
  change (first_segment (String c (first +:+ "," +:+ rest)) = String c first).
  cbn [first_segment].
  destruct (Ascii.eqb_spec c ",") as [->|Hne].
  - destruct (ascii_dec "," ",") as [_|Hcc]; [|done]. by destruct first.
  - by rewrite IH.
Qed.

(** X18.  Without a language tag on the request, the language is the text
    of the [Accept-Language] header before its first comma, taken as it is
    (quality values and further languages are not read). *)
Theorem accept_language_first_segment (req : Req.t) (h : gmap string string)
    (first rest : string) :
  truthy (of_str (Req.lang req)) = false →
  truthy (of_str (Req.language req)) = false →
  Req.headers req = Some h →
  h !! "accept-language" = Some (first +:+ "," +:+ rest) →
  includes first "," = false →
  lang_of req = Ok first.
Proof.
  intros Hlang Hlanguage Hheaders Hheader Hfirst. unfold lang_of.
  rewrite (str_or_falsy _ _ Hlanguage), (str_or_falsy _ _ Hlang), Hheaders. simpl.
  rewrite Hheader. simpl.
  replace (negb (String.eqb (first +:+ "," +:+ rest) "")) with true
    by by destruct first.
  by rewrite first_segment_app.
Qed.

Lemma accept_language_first_segment_witness :
  truthy (of_str (Req.lang Samples.german_request)) = false
  ∧ truthy (of_str (Req.language Samples.german_request)) = false
  ∧ includes "de-DE" "," = false
  ∧ lang_of Samples.german_request = Ok "de-DE".
Proof.
  split; [reflexivity|]. split; [reflexivity|]. split; [reflexivity|].
  apply (accept_language_first_segment Samples.german_request
           {[ "accept-language" := "de-DE,de;q=0.9,en;q=0.8" ]}
           "de-DE" "de;q=0.9,en;q=0.8"); reflexivity.
Defined.

End HandleErrorMore.

(** ** Color tokens *)
Module ColorMore.
Import Regex Shapes.

Lemma hex_pattern_shape (p : ascii → bool) (s : string) :
  test (Seq (chr "#")
          (Cap 1 (alts [times 3 (Cls p); times 4 (Cls p);
                        times 6 (Cls p); times 8 (Cls p)]))) s
  = match s with
    | EmptyString => false
    | String c digits =>
        Ascii.eqb "#" c
        && (let n := String.length digits in
            Nat.eqb n 3 || Nat.eqb n 4 || Nat.eqb n 6 || Nat.eqb n 8)
        && all_chars p digits
    end.
Proof.
  destruct s as [|c digits]; [reflexivity|].
  unfold test, exec. cbn [run chr alts times].
  destruct (Ascii.eqb "#" c); [|reflexivity]. cbn [andb].
  do 9 (destruct digits as [|? digits];
        [cbn; repeat (match goal with |- context [p ?a] => destruct (p a) end; cbn);
         reflexivity|]).
  cbn. repeat (match goal with |- context [p ?a] => destruct (p a) end; cbn);
    reflexivity.
Qed.

(** X19.  The hex pattern accepts exactly the tokens made of [#] and 3,
    4, 6 or 8 hexadecimal digits. *)
Theorem hex_pattern_accepts (s : string) :
  test Colorlog.ColorRegex_hex s = hex_token s
  ∧ test ColorlogAnsi.ColorRegex_hex s = hex_token s.
Proof. split; apply hex_pattern_shape. Qed.

Lemma run_lit (w s : string) (caps : captures) (k : string → captures → option captures) :
  run (lit w) s caps k
  = match strip w s with Some rest => k rest caps | None => None end.
Proof.
  revert s. induction w as [|c w IH]; intros s; [done|].
  cbn [lit run chr strip]. destruct s as [|d s]; [done|].
  destruct (Ascii.eqb c d); [apply IH|done].
Qed.

Lemma run_lit_i (w s : string) (caps : captures)
    (k : string → captures → option captures) :
  run (lit_i w) s caps k
  = match strip_i w s with Some rest => k rest caps | None => None end.
Proof.
  revert s. induction w as [|c w IH]; intros s; [done|].
  cbn [lit_i run strip_i]. destruct s as [|d s]; [done|].
  destruct (Ascii.eqb (lower d) (lower c)); [apply IH|done].
Qed.

Lemma strip_i_all (w s : string) :
  match strip_i w s with Some rest => String.eqb rest "" | None => false end
  = String.eqb (toLowerCase s) (toLowerCase w).
Proof.
  revert s. induction w as [|c w IH]; intros s.
  - by destruct s.
  - destruct s as [|d s]; [done|]. cbn [strip_i toLowerCase String.eqb].
    destruct (Ascii.eqb (lower d) (lower c)); [apply IH|done].
Qed.

Lemma test_lit_i (w s : string) :
  test (lit_i w) s = String.eqb (toLowerCase s) (toLowerCase w).
Proof.
  unfold test, exec. rewrite run_lit_i, <- strip_i_all.
  destruct (strip_i w s) as [rest|]; [|done]. by destruct (String.eqb rest "").
Qed.

Lemma test_alts (rs : list regex) (s : string) :
  test (alts rs) s = existsb (λ r, test r s) rs.
Proof.
  induction rs as [|r rest IH].
  - unfold test, exec. by destruct s.
  - destruct rest as [|r' rest].
    + simpl. by rewrite orb_false_r.
    + change (alts (r :: r' :: rest)) with (Alt r (alts (r' :: rest))).
      change (existsb (λ r0, test r0 s) (r :: r' :: rest))
        with (test r s || existsb (λ r0, test r0 s) (r' :: rest)).
      rewrite <- IH. unfold test, exec. cbn [run].
      by destruct (run r s [] _).
Qed.

Lemma named_pattern_shape (names : list string) (s : string) :
  forallb (λ w, String.eqb (toLowerCase w) w) names = true →
  test (alts (lit_i <$> names)) s = bool_decide (toLowerCase s ∈ names).
Proof.
  intros Hlower. rewrite test_alts.
  apply eq_true_iff_eq. rewrite existsb_exists, bool_decide_eq_true. split.
  - intros (r & Hr & Htest). apply list_elem_of_In, list_elem_of_fmap in Hr as (w & -> & Hw).
    rewrite test_lit_i in Htest. apply String.eqb_eq in Htest.
    rewrite forallb_forall in Hlower.
    specialize (Hlower w (proj1 (list_elem_of_In _ _) Hw)).
    apply String.eqb_eq in Hlower. congruence.
  - intros Hin. exists (lit_i (toLowerCase s)). split.
    + apply list_elem_of_In, list_elem_of_fmap. by exists (toLowerCase s).
    + rewrite test_lit_i. apply String.eqb_eq.
      rewrite forallb_forall in Hlower.
      specialize (Hlower _ (proj1 (list_elem_of_In _ _) Hin)).
      by apply String.eqb_eq in Hlower.
Qed.

(** X20.  The named pattern accepts a token exactly when its lower-case
    form is one of the listed names: the match ignores case and nothing
    else. *)
Theorem named_pattern_accepts (s : string) :
  test Colorlog.ColorRegex_named s
    = bool_decide (toLowerCase s ∈ Colorlog.named_colors)
  ∧ test ColorlogAnsi.ColorRegex_named s
    = bool_decide (toLowerCase s ∈ ColorlogAnsi.named_colors).
Proof. split; by apply named_pattern_shape. Qed.

Import ColorlogAnsi.

Lemma in_all_ascii (c : ascii) : In c all_ascii.
Proof.
  unfold all_ascii. rewrite <- (ascii_nat_embedding c).
  apply in_map, in_seq. pose proof (nat_ascii_bounded c). lia.
Qed.

Lemma for_all_ascii (p : ascii → bool) :
  forallb p all_ascii = true → ∀ c, p c = true.
Proof. intros Hall c. rewrite forallb_forall in Hall. apply Hall, in_all_ascii. Qed.

Lemma hex_pair (c d : ascii) :
  hexdigit c = true → hexdigit d = true →
  ∃ v, parseInt (String c (String d EmptyString)) 16 = Some v ∧ 0 ≤ v ≤ 255.
Proof.
  intros Hc Hd.
  assert (forallb (λ c, forallb (hex_pair_ok c) all_ascii) all_ascii = true) as Hall
    by by vm_compute.
  pose proof (for_all_ascii _ (for_all_ascii _ Hall c) d) as Hok.
  unfold hex_pair_ok in Hok. rewrite Hc, Hd in Hok. simpl in Hok.
  destruct (parseInt _ 16) as [v|]; [|done]. exists v. split; [done|]. lia.
Qed.

Lemma hex_double (c : ascii) :
  hexdigit c = true →
  ∃ d, digit_value 16 c = Some d ∧ 0 ≤ d ≤ 15
       ∧ parseInt (String c (String c EmptyString)) 16 = Some (17 * d).
Proof.
  intros Hc.
  assert (forallb hex_double_ok all_ascii = true) as Hall by by vm_compute.
  pose proof (for_all_ascii _ Hall c) as Hok.
  unfold hex_double_ok in Hok. rewrite Hc in Hok. simpl in Hok.
  destruct (digit_value 16 c) as [d|]; [|done].
  destruct (parseInt _ 16) as [v|]; [|done].
  exists d. split; [done|]. split; [lia|]. f_equal. lia.
Qed.

(** X21.  [hexToRgb] gives each digit [d] of the three-digit form the
    channel [17 * d] (the digit doubled), reads the six-digit form with every
    digit doubled the same way, and ignores the alpha digits of the four- and
    eight-digit forms. *)
Theorem hexToRgb_shorthand_and_alpha (r g b a r' g' b' a' : ascii) :
  let text (cs : list ascii) := String "#" (string_of_list_ascii cs) in
  hexdigit r = true → hexdigit g = true → hexdigit b = true →
  (∃ dr dg db,
     digit_value 16 r = Some dr ∧ digit_value 16 g = Some dg
     ∧ digit_value 16 b = Some db
     ∧ hexToRgb (text [r; g; b])
       = Some (Some (17 * dr), Some (17 * dg), Some (17 * db)))
  ∧ hexToRgb (text [r; g; b]) = hexToRgb (text [r; r; g; g; b; b])
  ∧ hexToRgb (text [r; g; b; a]) = hexToRgb (text [r; g; b])
  ∧ hexToRgb (text [r; r'; g; g'; b; b'; a; a'])
    = hexToRgb (text [r; r'; g; g'; b; b']).
Proof.
  intros text Hr Hg Hb.
  destruct (hex_double r Hr) as (dr & Hdr & _ & Hpr).
  destruct (hex_double g Hg) as (dg & Hdg & _ & Hpg).
  destruct (hex_double b Hb) as (db & Hdb & _ & Hpb).
  split; [|done]. exists dr, dg, db. split; [done|]. split; [done|]. split; [done|].
  transitivity (Some (parseInt (String r (String r EmptyString)) 16,
                      parseInt (String g (String g EmptyString)) 16,
                      parseInt (String b (String b EmptyString)) 16));
    [reflexivity|]. by rewrite Hpr, Hpg, Hpb.
Qed.

Lemma hexToRgb_shorthand_and_alpha_witness :
  hexdigit "f" = true ∧ hexdigit "A" = true ∧ hexdigit "0" = true
  ∧ hexToRgb "#fA0" = Some (Some 255, Some 170, Some 0)
  ∧ (∃ dr dg db,
       digit_value 16 "f" = Some dr ∧ digit_value 16 "A" = Some dg
       ∧ digit_value 16 "0" = Some db
       ∧ hexToRgb "#fA0" = Some (Some (17 * dr), Some (17 * dg), Some (17 * db)))
  ∧ hexToRgb "#fA0" = hexToRgb "#ffAA00"
  ∧ hexToRgb "#fA08" = hexToRgb "#fA0"
  ∧ hexToRgb "#f0A80080" = hexToRgb "#f0A800".
Proof.
  split; [reflexivity|]. split; [reflexivity|]. split; [reflexivity|].
  split; [reflexivity|].
  apply (hexToRgb_shorthand_and_alpha "f" "A" "0" "8" "0" "8" "0" "0");
    reflexivity.
Defined.

Lemma namedAnsi_keys (key ansi : string) :
  namedAnsi !! key = Some ansi →
  key ∈ ["black"; "red"; "green"; "yellow"; "blue"; "magenta"; "cyan"; "white";
         "gray"; "grey"].
Proof.
  unfold namedAnsi. intros Hkey. apply elem_of_list_to_map_2 in Hkey.
  rewrite !elem_of_cons, elem_of_nil in Hkey. rewrite !elem_of_cons.
  repeat destruct Hkey as [Hkey|Hkey]; try done; injection Hkey as -> _;
    repeat (first [left; reflexivity|right]).
Qed.

Lemma namedAnsi_no_hex (digits : string) : namedAnsi !! String "#" digits = None.
Proof.
  destruct (namedAnsi !! String "#" digits) as [ansi|] eqn:Hkey; [|done].
  apply namedAnsi_keys in Hkey. rewrite !elem_of_cons, elem_of_nil in Hkey.
  repeat destruct Hkey as [Hkey|Hkey]; done.
Qed.

Lemma colorToAnsi_hex (round_percent : Z → Z) (color : string)
    (rgb : number * number * number) :
  test ColorRegex_hex color = true →
  hexToRgb color = Some rgb →
  colorToAnsi round_percent color = Some (truecolor rgb).
Proof.
  intros Hhex Hrgb. unfold colorToAnsi. rewrite Hhex, Hrgb.
  unfold ColorRegex_hex, Colorlog.ColorRegex_hex in Hhex.
  rewrite hex_pattern_shape in Hhex.
  destruct color as [|c digits]; [done|].
  apply andb_true_iff in Hhex as [Hhex _]. apply andb_true_iff in Hhex as [Hc _].
  apply Ascii.eqb_eq in Hc as <-.
  change (toLowerCase (String "#" digits)) with (String "#" (toLowerCase digits)).
  by rewrite namedAnsi_no_hex.
Qed.

Lemma hex_channels (c1 c2 c3 c4 c5 c6 : ascii) :
  hexdigit c1 = true → hexdigit c2 = true → hexdigit c3 = true →
  hexdigit c4 = true → hexdigit c5 = true → hexdigit c6 = true →
  ∃ r g b,
    (parseInt (String c1 (String c2 EmptyString)) 16,
     parseInt (String c3 (String c4 EmptyString)) 16,
     parseInt (String c5 (String c6 EmptyString)) 16)
    = (Some r, Some g, Some b)
    ∧ 0 ≤ r ≤ 255 ∧ 0 ≤ g ≤ 255 ∧ 0 ≤ b ≤ 255.
Proof.
  intros H1 H2 H3 H4 H5 H6.
  destruct (hex_pair c1 c2 H1 H2) as (r & -> & ?).
  destruct (hex_pair c3 c4 H3 H4) as (g & -> & ?).
  destruct (hex_pair c5 c6 H5 H6) as (b & -> & ?).
  by exists r, g, b.
Qed.

(** X22.  For every token the hex pattern accepts, the terminal color is
    a truecolor escape whose three channels are integers between 0 and 255
    (never [NaN]). *)
Theorem hex_token_truecolor (round_percent : Z → Z) (color : string) :
  test ColorRegex_hex color = true →
  ∃ r g b,
    hexToRgb color = Some (Some r, Some g, Some b)
    ∧ colorToAnsi round_percent color = Some (truecolor (Some r, Some g, Some b))
    ∧ 0 ≤ r ≤ 255 ∧ 0 ≤ g ≤ 255 ∧ 0 ≤ b ≤ 255.
Proof.
  intros Hhex. pose proof (colorToAnsi_hex round_percent color) as Hansi.
  specialize (λ rgb, Hansi rgb Hhex).
  unfold ColorRegex_hex, Colorlog.ColorRegex_hex in Hhex.
  rewrite hex_pattern_shape in Hhex.
  destruct color as [|c digits]; [done|].
  apply andb_true_iff in Hhex as [Hhex Hdigits].
  apply andb_true_iff in Hhex as [Hc Hlen]. apply Ascii.eqb_eq in Hc as <-.
  rewrite <- (string_of_list_ascii_of_string digits) in *.
  destruct (list_ascii_of_string digits)
    as [|c1 [|c2 [|c3 [|c4 [|c5 [|c6 [|c7 [|c8 [|c9 cs]]]]]]]]]; try done.
  all: cbn [string_of_list_ascii all_chars] in Hdigits;
       rewrite !andb_true_iff in Hdigits.
  - destruct (hex_channels c1 c1 c2 c2 c3 c3) as (r & g & b & Heq & Hrange);
      [tauto..|].
    exists r, g, b. split; [exact (f_equal Some Heq)|].
    split; [|done]. apply Hansi. exact (f_equal Some Heq).
  - destruct (hex_channels c1 c1 c2 c2 c3 c3) as (r & g & b & Heq & Hrange);
      [tauto..|].
    exists r, g, b. split; [exact (f_equal Some Heq)|].
    split; [|done]. apply Hansi. exact (f_equal Some Heq).
  - destruct (hex_channels c1 c2 c3 c4 c5 c6) as (r & g & b & Heq & Hrange);
      [tauto..|].
    exists r, g, b. split; [exact (f_equal Some Heq)|].
    split; [|done]. apply Hansi. exact (f_equal Some Heq).
  - destruct (hex_channels c1 c2 c3 c4 c5 c6) as (r & g & b & Heq & Hrange);
      [tauto..|].
    exists r, g, b. split; [exact (f_equal Some Heq)|].
    split; [|done]. apply Hansi. exact (f_equal Some Heq).
Qed.

Lemma hex_token_truecolor_witness :
  test ColorRegex_hex "#fA0" = true
  ∧ ∃ r g b,
      hexToRgb "#fA0" = Some (Some r, Some g, Some b)
      ∧ colorToAnsi (λ pct, pct) "#fA0" = Some (truecolor (Some r, Some g, Some b))
      ∧ 0 ≤ r ≤ 255 ∧ 0 ≤ g ≤ 255 ∧ 0 ≤ b ≤ 255.
Proof.
  split; [by vm_compute|].
  apply (hex_token_truecolor (λ pct, pct) "#fA0"). by vm_compute.
Defined.

Lemma lower_idem (c : ascii) : lower (lower c) = lower c.
Proof. by destruct c as [[] [] [] [] [] [] [] []]. Qed.

Lemma strip_i_lower (w s : string) :
  strip_i w (toLowerCase s) = toLowerCase <$> strip_i w s.
Proof.
  revert s. induction w as [|c w IH]; intros s; [done|].
  destruct s as [|d s]; [done|]. cbn [toLowerCase strip_i].
  rewrite lower_idem. destruct (Ascii.eqb (lower d) (lower c)); [apply IH|done].
Qed.

Lemma strip_strip_i (w s : string) : is_Some (strip w s) → is_Some (strip_i w s).
Proof.
  revert s. induction w as [|c w IH]; intros s; [done|].
  destruct s as [|d s]; [done|]. cbn [strip strip_i].
  destruct (Ascii.eqb_spec c d) as [->|_]; [|by intros [? ?]].
  rewrite Ascii.eqb_refl. apply IH.
Qed.

Lemma test_seq_lit (w : string) (r : regex) (s : string) :
  test (Seq (lit w) r) s = true → is_Some (strip w s).
Proof.
  unfold test, exec. cbn [run]. rewrite run_lit.
  by destruct (strip w s) as [rest|]; [eauto|].
Qed.

Lemma named_excludes_others (names : list string) (s : string) :
  names_apart names = true →
  toLowerCase s ∈ names →
  test ColorRegex_hex s = false ∧ test ColorRegex_rgb s = false.
Proof.
  unfold names_apart. rewrite forallb_forall. intros Hnames Hin.
  specialize (Hnames _ (proj1 (list_elem_of_In _ _) Hin)).
  rewrite !strip_i_lower in Hnames.
  destruct (strip_i "#" s) as [h|] eqn:Hhash; [done|].
  destruct (strip_i "rgb" s) as [g|] eqn:Hrgb; [done|]. clear Hnames.
  split.
  - unfold ColorRegex_hex, Colorlog.ColorRegex_hex. rewrite hex_pattern_shape.
    destruct s as [|c digits]; [done|].
    destruct (Ascii.eqb_spec "#" c) as [<-|_]; [done|done].
  - destruct (test ColorRegex_rgb s) eqn:Htest; [|done].
    unfold ColorRegex_rgb, Colorlog.ColorRegex_rgb in Htest.
    apply test_seq_lit, strip_strip_i in Htest as [? Htest]. congruence.
Qed.

(** X23.  In a terminal, a token accepted by the named pattern is
    colored only when it is one of black, blue, cyan, gray, green, grey and
    magenta (in any case); every other accepted name is printed plain. *)
Theorem named_color_in_terminal (round_percent : Z → Z) (message color : string) :
  test ColorRegex_named color = true →
  (toLowerCase color ∈ terminal_names →
   ∃ ansi,
     namedAnsi !! toLowerCase color = Some ansi
     ∧ Coloredlog round_percent false message color false
       = [[ansi +:+ message +:+ ESC +:+ "[0m"]])
  ∧ (toLowerCase color ∉ terminal_names →
     Coloredlog round_percent false message color false = [[message]]).
Proof.
  intros Hnamed. unfold Coloredlog, isValid. rewrite Hnamed, !orb_true_r.
  rewrite (named_pattern_shape named_colors) in Hnamed by done.
  apply bool_decide_eq_true in Hnamed.
  destruct (named_excludes_others named_colors color) as [Hhex Hrgb]; [done|done|].
  assert (forallb (λ n, Bool.eqb (bool_decide (is_Some (namedAnsi !! n)))
                          (bool_decide (n ∈ terminal_names))) named_colors = true)
    as Hmapped by by vm_compute.
  rewrite forallb_forall in Hmapped.
  specialize (Hmapped _ (proj1 (list_elem_of_In _ _) Hnamed)).
  apply eqb_prop in Hmapped. unfold colorToAnsi. rewrite Hhex, Hrgb. split.
  - intros Hterminal. rewrite (bool_decide_eq_true_2 _ Hterminal) in Hmapped.
    apply bool_decide_eq_true in Hmapped as [ansi Hansi].
    exists ansi. by rewrite Hansi.
  - intros Hother. rewrite (bool_decide_eq_false_2 _ Hother) in Hmapped.
    apply bool_decide_eq_false in Hmapped.
    destruct (namedAnsi !! toLowerCase color) as [ansi|] eqn:Hansi; [|done].
    destruct Hmapped. by exists ansi.
Qed.

Lemma named_color_in_terminal_witness :
  test ColorRegex_named "AliceBlue" = true
  ∧ (toLowerCase "AliceBlue" ∈ terminal_names →
     ∃ ansi,
       namedAnsi !! toLowerCase "AliceBlue" = Some ansi
       ∧ Coloredlog (λ pct, pct) false "ready" "AliceBlue" false
         = [[ansi +:+ "ready" +:+ ESC +:+ "[0m"]])
  ∧ (toLowerCase "AliceBlue" ∉ terminal_names →
     Coloredlog (λ pct, pct) false "ready" "AliceBlue" false = [["ready"]]).
Proof.
  split; [by vm_compute|].
  apply (named_color_in_terminal (λ pct, pct) "ready" "AliceBlue"). by vm_compute.
Defined.

(** X24.  The two copies of [Coloredlog] accept the same tokens, with one
    exception each way: only the two-argument copy accepts mintcream, only
    the three-argument copy accepts mincream. *)
Theorem copies_differ_on_one_name (color : string) :
  (Colorlog.isValid color = true ∧ isValid color = false ↔
     toLowerCase color = "mintcream")
  ∧ (Colorlog.isValid color = false ∧ isValid color = true ↔
     toLowerCase color = "mincream").
Proof.
  unfold Colorlog.isValid, isValid.
  change (test Colorlog.ColorRegex_hex color) with (test ColorRegex_hex color).
  change (test Colorlog.ColorRegex_rgb color) with (test ColorRegex_rgb color).
  rewrite (named_pattern_shape Colorlog.named_colors) by done.
  rewrite (named_pattern_shape named_colors) by done.
  assert (forallb (λ n, String.eqb n "mintcream" || bool_decide (n ∈ named_colors))
            Colorlog.named_colors = true) as Hfirst by by vm_compute.
  assert (forallb (λ n, String.eqb n "mincream" || bool_decide (n ∈ Colorlog.named_colors))
            named_colors = true) as Hsecond by by vm_compute.
  rewrite forallb_forall in Hfirst, Hsecond.
  split; split.
  - intros [Hone Htwo]. apply orb_false_iff in Htwo as [Hothers Htwo].
    rewrite Hothers in Hone. simpl in Hone.
    apply bool_decide_eq_true in Hone. apply bool_decide_eq_false in Htwo.
    specialize (Hfirst _ (proj1 (list_elem_of_In _ _) Hone)).
    apply orb_true_iff in Hfirst as [Heq|Hin]; [by apply String.eqb_eq|].
    by apply bool_decide_eq_true in Hin.
  - intros Hname.
    assert (toLowerCase color ∈ Colorlog.named_colors) as Hin
      by (rewrite Hname; refine (bool_decide_unpack _ _); by vm_compute).
    destruct (named_excludes_others Colorlog.named_colors color) as [-> ->];
      [done|done|].
    rewrite (bool_decide_eq_true_2 _ Hin). split; [done|]. rewrite Hname.
    by vm_compute.
  - intros [Hone Htwo]. apply orb_false_iff in Hone as [Hothers Hone].
    rewrite Hothers in Htwo. simpl in Htwo.
    apply bool_decide_eq_true in Htwo. apply bool_decide_eq_false in Hone.
    specialize (Hsecond _ (proj1 (list_elem_of_In _ _) Htwo)).
    apply orb_true_iff in Hsecond as [Heq|Hin]; [by apply String.eqb_eq|].
    by apply bool_decide_eq_true in Hin.
  - intros Hname.
    assert (toLowerCase color ∈ named_colors) as Hin
      by (rewrite Hname; refine (bool_decide_unpack _ _); by vm_compute).
    destruct (named_excludes_others named_colors color) as [-> ->]; [done|done|].
    rewrite (bool_decide_eq_true_2 _ Hin). split; [|done]. rewrite Hname.
    by vm_compute.
Qed.

Lemma digit_char (c : ascii) :
  digit c = true →
  Ascii.eqb c "%" = false
  ∧ (∃ d, digit_value 10 c = Some d ∧ 0 ≤ d ≤ 9)
  ∧ ∀ rest, parseInt (String c rest) 10 = Z.mul 1 <$> digits 10 (String c rest) None.
Proof.
  destruct c as [[] [] [] [] [] [] [] []]; intros Hdigit; try discriminate Hdigit.
  all: split; [reflexivity|]; split; [|done].
  all: eexists; split; [reflexivity|]; by vm_compute.
Qed.

Lemma digits_nonneg (s : string) (a : Z) :
  all_chars digit s = true → 0 ≤ a →
  ∃ v, digits 10 s (Some a) = Some v ∧ 0 ≤ v.
Proof.
  revert a. induction s as [|c s IH]; intros a Hs Ha; [by exists a|].
  cbn [all_chars] in Hs. apply andb_true_iff in Hs as [Hc Hs].
  destruct (digit_char c Hc) as (_ & (d & Hd & Hrange) & _).
  cbn [digits]. rewrite Hd. apply IH; [done|]. simpl. lia.
Qed.

Lemma parseInt_digits (s : string) :
  all_chars digit s = true → s ≠ "" →
  ∃ v, parseInt s 10 = Some v ∧ 0 ≤ v.
Proof.
  intros Hs Hne. destruct s as [|c s]; [done|].
  pose proof Hs as Hall. cbn [all_chars] in Hs. apply andb_true_iff in Hs as [Hc Hs].
  destruct (digit_char c Hc) as (_ & (d & Hd & Hrange) & ->).
  cbn [digits]. rewrite Hd.
  destruct (digits_nonneg s (default 0 None * 10 + d) Hs) as (v & -> & Hv);
    [simpl; lia|].
  exists v. split; [simpl; f_equal; lia|done].
Qed.

Lemma endsWith_percent_digits (s : string) :
  all_chars digit s = true → endsWith_percent s = false.
Proof.
  induction s as [|c s IH]; [done|]. cbn [all_chars]. intros Hs.
  apply andb_true_iff in Hs as [Hc Hs].
  destruct (digit_char c Hc) as (Hpercent & _).
  destruct s as [|d s]; [exact Hpercent|]. by apply IH.
Qed.

Lemma endsWith_percent_app (s : string) : endsWith_percent (s +:+ "%") = true.
Proof.
  induction s as [|c s IH]; [done|].
  change (endsWith_percent (String c (s +:+ "%")) = true).
  destruct s as [|d s]; [done|]. exact IH.
Qed.

Lemma replace_percent (s : string) :
  all_chars digit s = true → replace_first "%" "" (s +:+ "%") = s.
Proof.
  induction s as [|c s IH]; [done|]. cbn [all_chars]. intros Hs.
  apply andb_true_iff in Hs as [Hc Hs].
  destruct (digit_char c Hc) as (Hpercent & _).
  change (replace_first "%" "" (String c (s +:+ "%")) = String c s).
  cbn [replace_first]. rewrite Hpercent. by rewrite IH.
Qed.

(** X25.  On a run of decimal digits, with or without a trailing [%],
    [toNum] yields an integer between 0 and 255 (never [NaN]), whatever the
    percentage rounding gives. *)
Theorem toNum_in_range (round_percent : Z → Z) (ds : string) :
  all_chars digit ds = true →
  ds ≠ "" →
  (∃ n, toNum round_percent ds = Some n ∧ 0 ≤ n ≤ 255)
  ∧ (∃ n, toNum round_percent (ds +:+ "%") = Some n ∧ 0 ≤ n ≤ 255).
Proof.
  intros Hds Hne. destruct (parseInt_digits ds Hds Hne) as (v & Hv & Hpos).
  unfold toNum. rewrite (endsWith_percent_digits ds Hds), endsWith_percent_app.
  rewrite (replace_percent ds Hds), Hv. simpl. split; eexists; (split; [reflexivity|lia]).
Qed.

Lemma toNum_in_range_witness :
  all_chars digit "300" = true
  ∧ "300" ≠ ""
  ∧ toNum (λ pct, pct) "300" = Some 255
  ∧ (∃ n, toNum (λ pct, pct) "300" = Some n ∧ 0 ≤ n ≤ 255)
  ∧ (∃ n, toNum (λ pct, pct) ("300" +:+ "%") = Some n ∧ 0 ≤ n ≤ 255).
Proof.
  split; [reflexivity|]. split; [discriminate|]. split; [reflexivity|].
  apply (toNum_in_range (λ pct, pct) "300"); [reflexivity|discriminate].
Defined.

End ColorMore.
